(** * Threshold governance, verification sessions and the audit log

    A shallow embedding of the three Node.js services of the SSI
    implementation kit:

    - [src/governance-service/index.js]   (module [Governance]),
    - [src/verification-gateway/index.js] (module [Gateway]),
    - the Redis-backed transparency log   (module [TransparencyLog]).

    Every route handler is an [async] function whose only interaction with
    the outside world happens at its [await] points: Redis commands and
    outbound HTTP calls.  A handler is therefore embedded as a finite tree of
    effects ([io]); the code between two [await]s is pure and is embedded as
    ordinary Gallina.  The tree is given two semantics: [run] handles one
    request to completion, and [interleave] lets several in-flight requests
    take turns at their [await] points, the way the Node.js event loop (or
    several replicas sharing one Redis) does.

    Conventions of the embedding:
    - Redis holds the JSON text of a record; the embedding keeps the record
      itself, [JSON.parse] being the inverse of [JSON.stringify] on what the
      services write;
    - what a handler reads from a request body ([validatorId],
      [signature], [action], [payload], [proof_request_data]) is whatever
      JSON the client sent: an [option json], [None] for a property the body
      does not have ([undefined]);
    - a request to a route that reads its body carries a JSON body, so
      that [req.body] is an object or an array;
    - Redis answers every command; the calls that may fail are the outbound
      HTTP calls;
    - the clock does not advance while one request is handled. *)

From stdpp Require Import gmap strings list fin_maps pretty.
From Stdlib Require Import ZArith.
From Stdlib Require Import Ascii.

Open Scope Z_scope.

(** ** JSON values

    Request bodies and proposal payloads are JSON values.  Numbers are
    restricted to the integers that JavaScript holds exactly and prints in
    plain decimal notation; the members of an object are listed in the
    property order of the JavaScript object. *)

#[warnings="-register-all"]
Inductive json : Type :=
  | JNull
  | JBool (b : bool)
  | JNum (n : Z)
  | JStr (s : string)
  | JArr (xs : list json)
  | JObj (fields : list (string * json)).

Module Json.

Definition hex_digit (n : N) : ascii :=
  match n with
  | 0 => "0" | 1 => "1" | 2 => "2" | 3 => "3" | 4 => "4" | 5 => "5"
  | 6 => "6" | 7 => "7" | 8 => "8" | 9 => "9" | 10 => "a" | 11 => "b"
  | 12 => "c" | 13 => "d" | 14 => "e" | _ => "f"
  end%N%char.

(** [QuoteJSONString] of ECMA-262, per code unit: the quote and the
    backslash are escaped, the control characters get their short escape
    or a [\u00xx] one, everything else is copied. *)
Definition escape_char (c : ascii) : string :=
  let n := N_of_ascii c in
  if decide (n = 34)%N then "\" +:+ String c ""
  else if decide (n = 92)%N then "\\"
  else if decide (n = 8)%N then "\b"
  else if decide (n = 9)%N then "\t"
  else if decide (n = 10)%N then "\n"
  else if decide (n = 12)%N then "\f"
  else if decide (n = 13)%N then "\r"
  else if decide (n < 32)%N then
    "\u00" +:+ String (hex_digit (n / 16)) (String (hex_digit (n mod 16)) "")
  else String c "".

Fixpoint escape (s : string) : string :=
  match s with
  | EmptyString => ""
  | String c s' => escape_char c +:+ escape s'
  end.

(** The double quote, code unit 34. *)
Definition dquote : ascii := Eval cbv in ascii_of_N 34.

Definition quote (s : string) : string :=
  String dquote (escape s +:+ String dquote "").

(** [JSON.stringify] without indentation. *)
Fixpoint stringify (v : json) : string :=
  match v with
  | JNull => "null"
  | JBool true => "true"
  | JBool false => "false"
  | JNum n => pretty n
  | JStr s => quote s
  | JArr [] => "[]"
  | JArr (x :: xs) =>
      "[" +:+ stringify x +:+
      (fix elements (l : list json) : string :=
         match l with
         | [] => "]"
         | y :: l' => "," +:+ stringify y +:+ elements l'
         end) xs
  | JObj [] => "{}"
  | JObj ((k, x) :: fs) =>
      "{" +:+ quote k +:+ ":" +:+ stringify x +:+
      (fix members (l : list (string * json)) : string :=
         match l with
         | [] => "}"
         | (k', y) :: l' => "," +:+ quote k' +:+ ":" +:+ stringify y +:+ members l'
         end) fs
  end.

(** A template literal [`${x}`] or [JSON.stringify(x)] applied to a
    property that may be absent: [JSON.stringify(undefined)] is
    [undefined], which a template literal prints as ["undefined"]. *)
Definition stringify_opt (v : option json) : string :=
  match v with
  | Some x => stringify x
  | None => "undefined"
  end.

(** Property lookup [o[k]] on a parsed JSON object. *)
Fixpoint assoc (k : string) (fs : list (string * json)) : option json :=
  match fs with
  | [] => None
  | (k', v) :: fs' => if decide (k = k') then Some v else assoc k fs'
  end.

Definition field (k : string) (v : json) : option json :=
  match v with
  | JObj fs => assoc k fs
  | _ => None
  end.

(** Assignment [o[k] = v]: an existing property keeps its place. *)
Fixpoint set_field (k : string) (v : json) (fs : list (string * json))
  : list (string * json) :=
  match fs with
  | [] => [(k, v)]
  | (k', v') :: fs' =>
      if decide (k = k') then (k, v) :: fs' else (k', v') :: set_field k v fs'
  end.

Fixpoint chars_from (i : nat) (s : string) : list (string * json) :=
  match s with
  | EmptyString => []
  | String c s' => (pretty i, JStr (String c "")) :: chars_from (S i) s'
  end.

(** Own enumerable properties copied by object spread [{...v}]. *)
Definition spread (v : option json) : list (string * json) :=
  match v with
  | Some (JObj fs) => fs
  | Some (JArr xs) => imap (λ i x, (pretty i, x)) xs
  | Some (JStr s) => chars_from 0 s
  | _ => []
  end.

(** *** Vocabulary for the proof that [stringify] is injective *)

(** Reads back one escaped character: the inverse of [escape_char] used to
    show that the escapes do not overlap. *)
Definition unhex (c : ascii) : option N :=
  let n := N_of_ascii c in
  if decide (48 ≤ n ≤ 57)%N then Some (n - 48)%N
  else if decide (97 ≤ n ≤ 102)%N then Some (n - 87)%N
  else None.

Definition unescape_char (s : string) : option (ascii * string) :=
  match s with
  | String c t =>
      if decide (N_of_ascii c = 34)%N then None
      else if decide (N_of_ascii c = 92)%N then
        match t with
        | String "b" t' => Some (ascii_of_N 8, t')
        | String "t" t' => Some (ascii_of_N 9, t')
        | String "n" t' => Some (ascii_of_N 10, t')
        | String "f" t' => Some (ascii_of_N 12, t')
        | String "r" t' => Some (ascii_of_N 13, t')
        | String "u" (String _ (String _ (String h (String l t')))) =>
            match unhex h, unhex l with
            | Some a, Some b => Some (ascii_of_N (16 * a + b), t')
            | _, _ => None
            end
        | String c' t' => Some (c', t')
        | EmptyString => None
        end
      else Some (c, t)
  | EmptyString => None
  end.

Definition is_digit (c : ascii) : bool :=
  bool_decide (48 ≤ N_of_ascii c ≤ 57)%N.

Fixpoint all_digits (s : string) : bool :=
  match s with
  | EmptyString => true
  | String c t => is_digit c && all_digits t
  end.

(** What follows a number in a JSON text is not a digit. *)
Definition no_digit_ahead (r : string) : bool :=
  match r with
  | EmptyString => true
  | String c _ => negb (is_digit c)
  end.

(** Induction on JSON values, with the hypothesis for every element of an
    array and every member of an object. *)
Section JsonInduction.
Variable P : json → Prop.
Hypothesis HNull : P JNull.
Hypothesis HBool : ∀ b, P (JBool b).
Hypothesis HNum : ∀ n, P (JNum n).
Hypothesis HStr : ∀ s, P (JStr s).
Hypothesis HArr : ∀ xs, Forall P xs → P (JArr xs).
Hypothesis HObj : ∀ fs, Forall (λ kv, P kv.2) fs → P (JObj fs).

Fixpoint json_nested_ind (v : json) : P v :=
  match v with
  | JNull => HNull
  | JBool b => HBool b
  | JNum n => HNum n
  | JStr s => HStr s
  | JArr xs =>
      HArr xs
        ((fix go (l : list json) : Forall P l :=
            match l with
            | [] => Forall_nil_2 P
            | x :: l' => Forall_cons_2 P x l' (json_nested_ind x) (go l')
            end) xs)
  | JObj fs =>
      HObj fs
        ((fix go (l : list (string * json)) : Forall (λ kv, P kv.2) l :=
            match l with
            | [] => Forall_nil_2 _
            | kv :: l' => Forall_cons_2 _ kv l' (json_nested_ind kv.2) (go l')
            end) fs)
  end.
End JsonInduction.

(** The rest of an array after an element, and of an object after a member. *)
Definition elements (l : list json) : string :=
  foldr (λ y acc, "," +:+ stringify y +:+ acc) "]" l.

Definition members (l : list (string * json)) : string :=
  foldr (λ '(k, y) acc, "," +:+ quote k +:+ ":" +:+ stringify y +:+ acc) "}" l.

(** The kind of value a character opens. *)
Definition opens (c : ascii) : nat :=
  let n := N_of_ascii c in
  if decide (n = 110)%N then 0
  else if decide (n = 116)%N then 1
  else if decide (n = 102)%N then 2
  else if decide (n = 45 ∨ 48 ≤ n ≤ 57)%N then 3
  else if decide (n = 34)%N then 4
  else if decide (n = 91)%N then 5
  else if decide (n = 123)%N then 6
  else 7.

Definition kind (v : json) : nat :=
  match v with
  | JNull => 0
  | JBool true => 1
  | JBool false => 2
  | JNum _ => 3
  | JStr _ => 4
  | JArr _ => 5
  | JObj _ => 6
  end%nat.

(** Printed values can be told apart even when more text follows them. *)
Definition separable (v1 : json) : Prop :=
  ∀ v2 r1 r2,
    no_digit_ahead r1 = true → no_digit_ahead r2 = true →
    stringify v1 +:+ r1 = stringify v2 +:+ r2 → v1 = v2 ∧ r1 = r2.

(** *** Vocabulary for reading a printed value from the left

    Where a reader of a JSON text stands: outside every string literal,
    inside one, or inside one and just past a backslash. *)
Inductive mode : Type := Outside | Inside | Escaped.

(** The reader also counts the brackets and braces that are open.  It
    stops ([None]) at a character that no printed value has at that place:
    a backslash outside the string literals, or a colon outside them that
    is not within an object. *)
Definition read_char (st : mode * Z) (c : ascii) : option (mode * Z) :=
  let n := N_of_ascii c in
  match st.1 with
  | Escaped => Some (Inside, st.2)
  | Inside =>
      if decide (n = 34)%N then Some (Outside, st.2)
      else if decide (n = 92)%N then Some (Escaped, st.2)
      else Some (Inside, st.2)
  | Outside =>
      if decide (n = 34)%N then Some (Inside, st.2)
      else if decide (n = 92)%N then None
      else if decide (n = 58)%N then
        if decide (0 < st.2) then Some (Outside, st.2) else None
      else if decide (n = 91 ∨ n = 123)%N then Some (Outside, st.2 + 1)
      else if decide (n = 93 ∨ n = 125)%N then Some (Outside, st.2 - 1)
      else Some (Outside, st.2)
  end.

Fixpoint read (st : mode * Z) (s : string) : option (mode * Z) :=
  match s with
  | EmptyString => Some st
  | String c t =>
      match read_char st c with
      | Some st' => read st' t
      | None => None
      end
  end.

End Json.

(** ** Functions of the Node.js run time

    The cryptographic primitives, the Base64 codec and the date formatter
    are library code; the services are verified against any implementation
    of this interface.

    - [crypto_createPublicKey] is [None] where [crypto.createPublicKey]
      throws (the argument is not a parsable key);
    - [Buffer_from_base64] is total: [Buffer.from(s, 'base64')] never throws
      on a string, it skips what is not Base64;
    - [Buffer_from_object v] is [Buffer.from(v, 'base64')] for an array or
      an object [v], where the encoding plays no part: the bytes listed by
      an array or an array-like object, [None] where [Buffer.from] throws;
    - [crypto_verify msg key sig] is [crypto.verify(null, msg, key, sig)]. *)

Class Host := {
  KeyObject : Type;
  crypto_createPublicKey : string → option KeyObject;
  crypto_verify : string → KeyObject → string → bool;
  Buffer_from_base64 : string → string;
  Buffer_from_object : json → option string;
  Buffer_to_base64 : string → string;
  sha256_hex : string → string;
  Date_toISOString : Z → string;
}.

(** ** Redis and the effects of a handler *)

(** What a route handler sends back: [res.status(code).json(body)] or
    [res.status(code).send(text)]. *)
Inductive response : Type :=
  | res_json (code : nat) (body : json)
  | res_send (code : nat) (text : string).

Definition error_body (msg : string) : json := JObj [("error", JStr msg)].

Module Effects.
Section Effects.

(** [V] is the type of the records kept (as JSON text) under string keys,
[L] the type of the elements of Redis lists. *)
Context {V L : Type}.

(** A handler between two [await]s is pure; at an [await] it issues one
command and resumes with the reply.
- [Get key k]            [await redisClient.get(key)];
- [SetEx key v ex k]     [await redisClient.set(key, v, { EX: ex })],
                         or without options when [ex] is [None];
- [RPush key x k]        [await redisClient.rPush(key, x)], resumed with
                         the new length of the list;
- [Post url body k]      [axios.post(url, body)], resumed with
                         [response.data], or with [None] when the
                         promise is rejected;
- [Throw]                an exception leaves the enclosing block. *)
Inductive io (R : Type) : Type :=
| Ret (r : R)
| Throw
| Get (key : string) (k : option V → io R)
| SetEx (key : string) (v : V) (ex : option Z) (k : io R)
| RPush (key : string) (x : L) (k : nat → io R)
| Post (url : string) (body : json) (k : option json → io R).

Arguments Ret {R} r.
Arguments Throw {R}.
Arguments Get {R} key k.
Arguments SetEx {R} key v ex k.
Arguments RPush {R} key x k.
Arguments Post {R} url body k.

(** [try { p } catch (e) { h }]. *)
Fixpoint try_catch {R} (p : io R) (h : io R) : io R :=
match p with
| Ret r => Ret r
| Throw => h
| Get key k => Get key (λ v, try_catch (k v) h)
| SetEx key v ex k => SetEx key v ex (try_catch k h)
| RPush key x k => RPush key x (λ n, try_catch (k n) h)
| Post url body k => Post url body (λ r, try_catch (k r) h)
end.

(** The Redis keyspace (a string key holds a value and, when it was set
with [EX], the instant at which it expires), and the outbound HTTP
calls issued so far, oldest first. *)
Record world : Type := World {
strings : gmap string (V * option Z);
lists : gmap string (list L);
outbox : list (string * json);
}.

(** The surroundings of a request: the clock, and what the remote end of
an HTTP call answers ([None]: the call fails or times out). *)
Record env : Type := Env {
now : Z;
net : string → json → option json;
}.

Definition expired (t : Z) (ex : option Z) : bool :=
match ex with
| Some deadline => bool_decide (deadline ≤ t)
| None => false
end.

(** [GET]: an expired key is absent. *)
Definition redis_get (t : Z) (w : world) (key : string) : option V :=
match strings w !! key with
| Some (v, ex) => if expired t ex then None else Some v
| None => None
end.

(** [SET key v EX s] and [SET key v]; the latter discards a time to live
the key had. *)
Definition redis_set (t : Z) (key : string) (v : V) (ex : option Z) (w : world)
: world :=
World (<[key := (v, (λ s, t + s) <$> ex)]> (strings w)) (lists w) (outbox w).

Definition redis_list (w : world) (key : string) : list L :=
default [] (lists w !! key).

(** [RPUSH]: append at the tail. *)
Definition redis_rpush (key : string) (x : L) (w : world) : world :=
World (strings w) (<[key := redis_list w key ++ [x]]> (lists w)) (outbox w).

Definition send (url : string) (body : json) (w : world) : world :=
World (strings w) (lists w) (outbox w ++ [(url, body)]).

(** One turn of the event loop for one request: the pending command is
served and the handler advances to its next [await]. *)
Definition step {R} (e : env) (p : io R) (w : world) : io R * world :=
match p with
| Ret r => (Ret r, w)
| Throw => (Throw, w)
| Get key k => (k (redis_get (now e) w key), w)
| SetEx key v ex k => (k, redis_set (now e) key v ex w)
| RPush key x k =>
  let w' := redis_rpush key x w in
  (k (length (redis_list w' key)), w')
| Post url body k => (k (net e url body), send url body w)
end.

(** A request handled from start to end with nothing in between; [None]
is an exception nobody caught. *)
Fixpoint run {R} (e : env) (p : io R) (w : world) : option R * world :=
match p with
| Ret r => (Some r, w)
| Throw => (None, w)
| Get key k => run e (k (redis_get (now e) w key)) w
| SetEx key v ex k => run e k (redis_set (now e) key v ex w)
| RPush key x k =>
  let w' := redis_rpush key x w in
  run e (k (length (redis_list w' key))) w'
| Post url body k => run e (k (net e url body)) (send url body w)
end.

(** Requests handled one after the other, each in its own surroundings. *)
Fixpoint run_all {R} (reqs : list (env * io R)) (w : world)
: list (option R) * world :=
match reqs with
| [] => ([], w)
| (e, p) :: reqs' =>
  let '(r, w1) := run e p w in
  let '(rs, w2) := run_all reqs' w1 in
  (r :: rs, w2)
end.

(** Several requests in flight: [sched] names, turn by turn, the request
whose pending command is served next. *)
Fixpoint interleave {R} (e : env) (sched : list nat) (ps : list (io R))
(w : world) : list (io R) * world :=
match sched with
| [] => (ps, w)
| i :: sched' =>
  match ps !! i with
  | Some p =>
      let '(p', w') := step e p w in
      interleave e sched' (<[i := p']> ps) w'
  | None => interleave e sched' ps w
  end
end.

Definition finished {R} (p : io R) : option R :=
match p with
| Ret r => Some r
| _ => None
end.

End Effects.

Arguments io : clear implicits.
Arguments world : clear implicits.
Arguments Ret {V L R} r.
Arguments Throw {V L R}.
Arguments Get {V L R} key k.
Arguments SetEx {V L R} key v ex k.
Arguments RPush {V L R} key x k.
Arguments Post {V L R} url body k.

End Effects.
Import Effects.

(** ** JavaScript coercions used by the services *)

Module Js.

(** [String(v)], as a template literal applies it and as [o[v]] applies it
    to turn [v] into a property key; [None] is [undefined]. *)
Fixpoint to_string (v : json) : string :=
  match v with
  | JNull => "null"
  | JBool true => "true"
  | JBool false => "false"
  | JNum n => pretty n
  | JStr s => s
  | JArr [] => ""
  | JArr (x :: xs) =>
      let item (y : json) : string :=
        match y with JNull => "" | _ => to_string y end in
      match x with JNull => "" | _ => to_string x end +:+
      (fix rest (l : list json) : string :=
         match l with
         | [] => ""
         | y :: l' =>
             "," +:+ match y with JNull => "" | _ => to_string y end +:+ rest l'
         end) xs
  | JObj _ => "[object Object]"
  end.

Definition template (v : option json) : string :=
  match v with
  | Some x => to_string x
  | None => "undefined"
  end.

(** [!!v]. *)
Definition truthy (v : option json) : bool :=
  match v with
  | None | Some JNull => false
  | Some (JBool b) => b
  | Some (JNum n) => bool_decide (n ≠ 0)
  | Some (JStr s) => bool_decide (s ≠ "")
  | Some (JArr _) | Some (JObj _) => true
  end.

(** A property of an object literal that [JSON.stringify] drops when its
    value is [undefined]. *)
Definition prop (k : string) (v : option json) : list (string * json) :=
  match v with
  | Some x => [(k, x)]
  | None => []
  end.

End Js.

(** ** The governance service ([src/governance-service/index.js]) *)

Module Governance.

(** A proposal as [JSON.parse] returns it.  [action], [payload] and
    [requestor] are what the creating request carried, unchecked: any JSON
    value, or [None] for a property that was [undefined] and that
    [JSON.stringify] therefore left out.  [approvals] holds what the vote
    requests carried as [validatorId]. *)
Record proposal : Type := Proposal {
  id : string;
  action : option json;
  payload : option json;
  requestor : option json;
  approvals : list json;
  status : string;
  createdAt : string;
}.

Definition set_approvals (l : list json) (p : proposal) : proposal :=
  Proposal (id p) (action p) (payload p) (requestor p) l (status p) (createdAt p).

Definition set_status (s : string) (p : proposal) : proposal :=
  Proposal (id p) (action p) (payload p) (requestor p) (approvals p) s (createdAt p).

Definition set_payload (v : option json) (p : proposal) : proposal :=
  Proposal (id p) (action p) v (requestor p) (approvals p) (status p) (createdAt p).

Definition set_action (v : option json) (p : proposal) : proposal :=
  Proposal (id p) v (payload p) (requestor p) (approvals p) (status p) (createdAt p).

(** The service keeps proposals only; it uses no Redis list. *)
Abbreviation io := (Effects.io proposal Empty_set).
Abbreviation world := (Effects.world proposal Empty_set).

Definition THRESHOLD : nat := 3.

(** The deployment: [ISSUER_ADMIN_URL] and the [VALIDATORS] table, which
    maps a validator's name to its PEM public key and is filled once at
    start-up.  For a name that is not in the table,
    [VALIDATORS[validatorId].publicKey] throws a [TypeError]; for a name
    that only [Object.prototype] knows, the property is [undefined] and
    [crypto.createPublicKey] throws: either way the handler throws. *)
Record config : Type := Config {
  ISSUER_ADMIN_URL : string;
  VALIDATORS : gmap string string;
}.

Definition proposal_key (id : string) : string := "proposal:" +:+ id.

(** The centralized error handler, reached through [next(e)]. *)
Definition internal_error : response := res_json 500 (error_body "Internal Error").

(** [POST /proposals], behind [requireAdmin]: [username] is
    [req.user.username], [action] and [payload] are [req.body.action] and
    [req.body.payload], [uuid] is the value of [crypto.randomUUID()] and [t]
    the instant read by [new Date()]. *)
Definition create `{Host} (t : Z) (uuid : string)
    (username action payload : option json) : io response :=
  try_catch
    (SetEx (proposal_key uuid)
       (Proposal uuid action payload username [] "PENDING" (Date_toISOString t))
       (Some 86400)
       (Ret (res_json 201
               (JObj [("proposalId", JStr uuid); ("status", JStr "PENDING")]))))
    (Ret internal_error).

(** The text a validator signs: a template literal, which prints the
    action with [String]. *)
Definition message (id : string) (p : proposal) : string :=
  id +:+ ":" +:+ Js.template (action p) +:+ ":" +:+ Json.stringify_opt (payload p).

(** The comparison made by [includes], where [a] comes out of
    [JSON.parse] and [b] out of the request body: equal primitives; an
    array or an object is only ever the same as itself. *)
Definition same_value (a b : json) : bool :=
  match a, b with
  | JNull, JNull => true
  | JBool x, JBool y => bool_decide (x = y)
  | JNum x, JNum y => bool_decide (x = y)
  | JStr x, JStr y => bool_decide (x = y)
  | _, _ => false
  end.

(** [proposal.approvals.includes(validatorId)]; no element of a parsed
    array is [undefined]. *)
Definition includes (l : list json) (validatorId : option json) : bool :=
  match validatorId with
  | Some v => existsb (λ a, same_value a v) l
  | None => false
  end.

(** What [JSON.stringify] writes for the element added by
    [proposal.approvals.push(validatorId)]: [undefined] in an array is
    written [null]. *)
Definition pushed (validatorId : option json) : json := default JNull validatorId.

(** [Buffer.from(signature, 'base64')]; [None] where it throws. *)
Definition signature_bytes `{Host} (signature : option json) : option string :=
  match signature with
  | Some (JStr s) => Some (Buffer_from_base64 s)
  | Some (JArr xs) => Buffer_from_object (JArr xs)
  | Some (JObj fs) => Buffer_from_object (JObj fs)
  | Some JNull | Some (JBool _) | Some (JNum _) | None => None
  end.

(** [proposal.action === 'REVOKE_CREDENTIAL']. *)
Definition is_revocation (p : proposal) : bool :=
  match action p with
  | Some (JStr s) => bool_decide (s = "REVOKE_CREDENTIAL")
  | _ => false
  end.

(** The body sent to the issuer agent: [{ ...proposal.payload, publish: true }]. *)
Definition revoke_body (p : proposal) : json :=
  JObj (Json.set_field "publish" (JBool true) (Json.spread (payload p))).

Definition revoke_url (cfg : config) : string :=
  ISSUER_ADMIN_URL cfg +:+ "/revocation/revoke".

(** The last two statements of the vote handler. *)
Definition store_and_reply (id : string) (p : proposal) : io response :=
  SetEx (proposal_key id) p None
    (Ret (res_json 200 (JObj [("status", JStr (status p))]))).

(** [POST /proposals/:id/approve]: [id] is [req.params.id], [validatorId]
    and [signature] are the properties of [req.body], unchecked.  The table
    is indexed with [VALIDATORS[validatorId]], which turns [validatorId] into
    a property key with [String]. *)
Definition approve `{Host} (cfg : config) (id : string)
    (validatorId signature : option json) : io response :=
  try_catch
    (Get (proposal_key id) (λ raw,
       match raw with
       | None => Ret (res_json 404 (error_body "Not Found"))
       | Some proposal =>
         if bool_decide (status proposal ≠ "PENDING") then
           Ret (res_json 400 (error_body "Finalized"))
         else if includes (approvals proposal) validatorId then
           Ret (res_json 409 (error_body "Voted"))
         else
           match VALIDATORS cfg !! Js.template validatorId with
           | None => Throw
           | Some pem =>
             match crypto_createPublicKey pem with
             | None => Throw
             | Some key =>
               match signature_bytes signature with
               | None => Throw
               | Some sig =>
                 if negb (crypto_verify (message id proposal) key sig) then
                   Ret (res_json 401 (error_body "Bad Sig"))
                 else
                   let proposal :=
                     set_approvals (approvals proposal ++ [pushed validatorId])
                       proposal in
                   if bool_decide (THRESHOLD ≤ length (approvals proposal))%nat then
                     if is_revocation proposal then
                       Post (revoke_url cfg) (revoke_body proposal) (λ r,
                         match r with
                         | None => Throw
                         | Some _ =>
                             store_and_reply id (set_status "EXECUTED" proposal)
                         end)
                     else store_and_reply id (set_status "EXECUTED" proposal)
                   else store_and_reply id proposal
               end
             end
           end
       end))
    (Ret internal_error).

(** What Redis holds for a proposal at instant [t]. *)
Definition stored (t : Z) (w : world) (id : string) : option proposal :=
  redis_get t w (proposal_key id).

(** The calls made to the action executor. *)
Definition executions (cfg : config) (w : world) : list (string * json) :=
  filter (λ c, c.1 = revoke_url cfg) (outbox w).

(** *** Vocabulary for the statements about [approve] *)

(** The signature check of the handler passes for what is stored as [p]. *)
Definition signature_ok `{Host} (cfg : config) (id : string)
    (validatorId signature : option json) (p : proposal) : Prop :=
  ∃ pem key sig,
    VALIDATORS cfg !! Js.template validatorId = Some pem
    ∧ crypto_createPublicKey pem = Some key
    ∧ signature_bytes signature = Some sig
    ∧ crypto_verify (message id p) key sig = true.

(** The record an accepted vote writes back. *)
Definition voted (validatorId : option json) (p : proposal) : proposal :=
  let p1 := set_approvals (approvals p ++ [pushed validatorId]) p in
  if bool_decide (THRESHOLD ≤ length (approvals p1))%nat
  then set_status "EXECUTED" p1 else p1.

(** Does an accepted vote go through the call to the issuer agent? *)
Definition calls_executor (validatorId : option json) (p : proposal) : bool :=
  bool_decide (THRESHOLD ≤ length (approvals p ++ [pushed validatorId]))%nat
  && is_revocation p.

(** *** Requests, for statements about sequences of them *)

Inductive request : Type :=
  | PostProposals (t : Z) (uuid : string) (username action payload : option json)
  | PostApprove (id : string) (validatorId signature : option json).

Definition handle `{Host} (cfg : config) (r : request) : io response :=
  match r with
  | PostProposals t uuid username action payload =>
      create t uuid username action payload
  | PostApprove id validatorId signature => approve cfg id validatorId signature
  end.

(** The requests are served one after the other. *)
Definition serve `{Host} (cfg : config) (reqs : list (env * request)) (w : world)
  : list (option response) * world :=
  run_all (prod_map (λ e, e) (handle cfg) <$> reqs) w.

(** [crypto.randomUUID()] does not return [id] again. *)
Definition fresh_for (id : string) (r : env * request) : Prop :=
  match r.2 with
  | PostProposals _ uuid _ _ _ => uuid ≠ id
  | PostApprove _ _ _ => True
  end.

(** The approvals that are strings. *)
Definition names (l : list json) : list string :=
  omap (λ a, match a with JStr s => Some s | _ => None end) l.

(** The stored proposal [id] lists the value [v]. *)
Definition has_vote (id : string) (v : json) (w : world) : Prop :=
  ∃ p ex, strings w !! proposal_key id = Some (p, ex) ∧ v ∈ approvals p.

(** The proposal [id] is stored as EXECUTED, with no time to live. *)
Definition executed_for_good (id : string) (w : world) : Prop :=
  ∃ p, strings w !! proposal_key id = Some (p, None) ∧ status p = "EXECUTED".

(** Every stored proposal is PENDING or EXECUTED. *)
Definition two_statuses (w : world) : Prop :=
  ∀ key p ex, strings w !! key = Some (p, ex) →
    status p = "PENDING" ∨ status p = "EXECUTED".

(** *** Identifiers

    [crypto.randomUUID()] returns 36 characters: groups of 8, 4, 4, 4 and 12
    lower-case hexadecimal digits, with hyphens in between. *)

Definition is_hex (c : ascii) : bool :=
  let n := N_of_ascii c in
  bool_decide (48 ≤ n ≤ 57)%N || bool_decide (97 ≤ n ≤ 102)%N.

(** [n] hexadecimal digits, and what follows them. *)
Fixpoint hex_run (n : nat) (s : string) : option string :=
  match n with
  | O => Some s
  | S n' =>
      match s with
      | String c t => if is_hex c then hex_run n' t else None
      | EmptyString => None
      end
  end.

Definition hex_group (n : nat) (s : string) : option string :=
  match hex_run n s with
  | Some (String "-" t) => Some t
  | _ => None
  end.

Definition is_uuid (s : string) : bool :=
  match
    t1 ← hex_group 8 s; t2 ← hex_group 4 t1; t3 ← hex_group 4 t2;
    t4 ← hex_group 4 t3; hex_run 12 t4
  with
  | Some EmptyString => true
  | _ => false
  end.

End Governance.

(** ** The verification gateway ([src/verification-gateway/index.js]) *)

(** The [express-validator] package: [validation_error msg value] is the
    report it makes when a check with message [msg] fails on the field
    [proof_request_data] of the body, whose value is [value]. *)
Class ExpressValidator := {
  validation_error : string → option json → json;
}.

Module Gateway.

(** A session as [JSON.parse] returns it; [requestor] is what the token of
    the requesting user carried as [id], [None] when it carried none. *)
Record session : Type := Session {
  timestamp : string;
  status : string;
  requestor : option json;
}.

Definition set_status (s : string) (x : session) : session :=
  Session (timestamp x) s (requestor x).

Abbreviation io := (Effects.io session Empty_set).
Abbreviation world := (Effects.world session Empty_set).

Record config : Type := Config {
  AGENT_ADMIN_URL : string;
  TRILLIAN_URL : string;
  WEBHOOK_SECRET : option string;
}.

Definition session_key (exchange : option json) : string :=
  "session:" +:+ Js.template exchange.

Definition internal_error : response :=
  res_json 500 (error_body "Internal Server Error").

(** The validation chains of [POST /verify]:
    [body("proof_request_data").exists()], which fails on [undefined] only,
    and [body("proof_request_data").isObject()], which accepts an object
    that is neither an array nor [null]. *)
Definition exists_ (v : option json) : bool :=
  match v with
  | Some _ => true
  | None => false
  end.

Definition isObject (v : option json) : bool :=
  match v with
  | Some (JObj _) => true
  | _ => false
  end.

(** [validationResult(req).array()]: one report per failed chain, in the
    order of the chains. *)
Definition validation_errors `{ExpressValidator} (proof_request_data : option json)
  : list json :=
  (if exists_ proof_request_data then []
   else [validation_error "Required" proof_request_data])
  ++ (if isObject proof_request_data then []
      else [validation_error "Must be JSON" proof_request_data]).

Definition agent_url (cfg : config) : string :=
  AGENT_ADMIN_URL cfg +:+ "/present-proof/create-request".

(** The body of the call to the agent:
    [{ proof_request: req.body.proof_request_data, trace: false }]. *)
Definition agent_request (proof_request_data : option json) : json :=
  JObj (Js.prop "proof_request" proof_request_data ++ [("trace", JBool false)]).

(** The last handler of [POST /verify], behind the authentication and role
    middleware and the validation chains: [user_id] is [req.user.id] and
    [proof_request_data] is [req.body.proof_request_data].  Destructuring
    [response.data] throws when the agent answered [null]. *)
Definition verify `{Host} `{ExpressValidator} (cfg : config) (t : Z)
    (user_id proof_request_data : option json) : io response :=
  match validation_errors proof_request_data with
  | [] =>
      try_catch
        (Post (agent_url cfg) (agent_request proof_request_data)
           (λ r,
              match r with
              | None | Some JNull => Throw
              | Some data =>
                  let presentation_exchange_id :=
                    Json.field "presentation_exchange_id" data in
                  let presentation_request :=
                    Json.field "presentation_request" data in
                  SetEx (session_key presentation_exchange_id)
                    (Session (Date_toISOString t) "REQUEST_SENT" user_id)
                    (Some 3600)
                    (Ret (res_json 200
                            (JObj (Js.prop "presentation_exchange_id"
                                     presentation_exchange_id
                                   ++ Js.prop "request_url" presentation_request))))
              end))
        (Ret internal_error)
  | errors => Ret (res_json 400 (JObj [("errors", JArr errors)]))
  end.

Definition log_url (cfg : config) : string :=
  TRILLIAN_URL cfg +:+ "/api/v1/log/entries".

(** The leaf sent to the transparency log by [handleSuccessfulVerification]. *)
Definition leafData `{Host} (t : Z) (exchangeId : option json) (proofData : json)
  : string :=
  Buffer_to_base64
    (Json.stringify
       (JObj ([("timestamp", JStr (Date_toISOString t))]
              ++ Js.prop "exchangeId" exchangeId
              ++ [("result", JStr "VALID");
                  ("hash", JStr (sha256_hex (Json.stringify proofData)))]))).

Definition log_request `{Host} (t : Z) (exchangeId : option json)
    (proofData : json) : json :=
  JObj [("kind", JStr "hashedrekord");
        ("apiVersion", JStr "0.0.1");
        ("spec",
         JObj [("signature",
                JObj [("content", JStr (leafData t exchangeId proofData));
                      ("publicKey",
                       JObj [("content", JStr "base64_pub_key")])])])].

(** [handleSuccessfulVerification(exchangeId, proofData)] is called and
    not awaited: the request to the log leaves at once, and whether it
    succeeds is only written to the console. *)
Definition handleSuccessfulVerification `{Host} {R} (cfg : config) (t : Z)
    (exchangeId : option json) (proofData : json) (k : io R) : io R :=
  Post (log_url cfg) (log_request t exchangeId proofData) (λ _, k).

(** The first function of the webhook route: is the caller let through? *)
Definition webhook_allowed (cfg : config) (api_key : option string) (ip : string)
  : bool :=
  match WEBHOOK_SECRET cfg with
  | Some secret =>
      negb (bool_decide (secret ≠ "")
            && bool_decide (api_key ≠ Some secret)
            && bool_decide (ip ≠ "127.0.0.1"))
  | None => true
  end.

(** [v === s] for a string literal [s]. *)
Definition is_string (s : string) (v : option json) : bool :=
  match v with
  | Some (JStr s') => bool_decide (s' = s)
  | _ => false
  end.

(** [verified === "true" || verified === true]. *)
Definition success_flag (verified : option json) : bool :=
  is_string "true" verified
  || match verified with Some (JBool true) => true | _ => false end.

(** The second function of [POST /webhooks/topic/present_proof/]. *)
Definition present_proof `{Host} (cfg : config) (t : Z) (body : json)
  : io response :=
  try_catch
    (let state := Json.field "state" body in
     let presentation_exchange_id := Json.field "presentation_exchange_id" body in
     let verified := Json.field "verified" body in
     if is_string "verified" state then
       Get (session_key presentation_exchange_id) (λ sessionRaw,
         match sessionRaw with
         | Some session =>
             if success_flag verified then
               handleSuccessfulVerification cfg t presentation_exchange_id body
                 (SetEx (session_key presentation_exchange_id)
                    (set_status "VERIFIED_AND_LOGGED" session)
                    (Some 3600)
                    (Ret (res_send 200 "")))
             else Ret (res_send 200 "")
         | None => Ret (res_send 200 "")
         end)
     else Ret (res_send 200 ""))
    (Ret internal_error).

Definition webhook `{Host} (cfg : config) (t : Z) (api_key : option string)
    (ip : string) (body : json) : io response :=
  if webhook_allowed cfg api_key ip then present_proof cfg t body
  else Ret (res_json 401 (error_body "Unauthorized Webhook")).

(** The appends requested from the audit log. *)
Definition audit_appends (cfg : config) (w : world) : list (string * json) :=
  filter (λ c, c.1 = log_url cfg) (outbox w).

Definition session_at (t : Z) (w : world) (exchange : option json)
  : option session :=
  redis_get t w (session_key exchange).

End Gateway.

(** ** The transparency log (the Redis-backed stand-in for Rekor) *)

Module TransparencyLog.

Record logEntry : Type := LogEntry {
  uuid : string;
  timestamp : string;
  body : json;
}.

(** The service keeps one Redis list and no string key. *)
Abbreviation io := (Effects.io Empty_set logEntry).
Abbreviation world := (Effects.world Empty_set logEntry).

Definition log_key : string := "audit:transparency_log".

(** [POST /api/v1/log/entries]: [payload] is [req.body], [logId] the value
    of [crypto.randomUUID()], [t] the instant read by [new Date()]. *)
Definition append `{Host} (t : Z) (logId : string) (payload : option json)
  : io response :=
  try_catch
    (if negb (Js.truthy payload)
        || negb (Js.truthy (payload ≫= Json.field "spec")) then
       Ret (res_json 400 (error_body "Invalid payload structure"))
     else
       match payload with
       | None => Throw
       | Some b =>
           RPush log_key (LogEntry logId (Date_toISOString t) b) (λ listLength,
             Ret (res_json 201
                    (JObj [("uuid", JStr logId);
                           ("logIndex", JNum (Z.of_nat listLength));
                           ("nodepix", JStr "mock-proof")])))
       end)
    (Ret (res_json 500 (error_body "Internal Server Error"))).

(** The index a receipt carries. *)
Definition logIndex (r : option response) : option Z :=
  match r with
  | Some (res_json 201 b) =>
      match Json.field "logIndex" b with
      | Some (JNum n) => Some n
      | _ => None
      end
  | _ => None
  end.

Definition entries (w : world) : list logEntry := redis_list w log_key.

(** *** Submissions, for statements about sequences of them *)

Record submission : Type := Submission {
  sub_time : Z;
  sub_logId : string;
  sub_payload : option json;
}.

(** The guard of the handler lets the payload through. *)
Definition well_formed (payload : option json) : bool :=
  Js.truthy payload && Js.truthy (payload ≫= Json.field "spec").

Definition submit `{Host} (q : submission) : io response :=
  append (sub_time q) (sub_logId q) (sub_payload q).

(** The submissions are served one after the other. *)
Definition serve `{Host} (reqs : list (env * submission)) (w : world)
  : list (option response) * world :=
  run_all (prod_map (λ e, e) submit <$> reqs) w.

(** The indices on the receipts handed out, in the order of the requests. *)
Definition receipts (rs : list (option response)) : list Z :=
  omap logIndex rs.

(** The entry a well-formed submission adds. *)
Definition entry_of `{Host} (q : submission) : option logEntry :=
  if well_formed (sub_payload q)
  then LogEntry (sub_logId q) (Date_toISOString (sub_time q)) <$> sub_payload q
  else None.

End TransparencyLog.

(** ** Test doubles

    A stand-in for the run time, used to evaluate the handlers on concrete
    requests: a key object is its PEM text, a signature is valid when it is
    the key followed by [/] and the signed text, the codecs and the hash
    copy their argument. *)

Module Sample.

(** The byte an element of an array stands for in [Buffer.from]. *)
Definition byte_of (x : json) : ascii :=
  match x with
  | JNum n => ascii_of_N (Z.to_N (n `mod` 256))
  | _ => Ascii.zero
  end.

#[export] Instance host : Host := {|
  KeyObject := string;
  crypto_createPublicKey pem := if decide (pem = "") then None else Some pem;
  crypto_verify msg key sig := bool_decide (sig = key +:+ "/" +:+ msg);
  Buffer_from_base64 s := s;
  Buffer_from_object v :=
    match v with
    | JArr xs => Some (String.string_of_list_ascii (byte_of <$> xs))
    | _ => None
    end;
  Buffer_to_base64 s := s;
  sha256_hex s := s;
  Date_toISOString t := pretty t;
|}.

(** The reports of the validation library, in the shape of its version 7. *)
#[export] Instance express_validator : ExpressValidator := {|
  validation_error msg value :=
    JObj ([("type", JStr "field")] ++ Js.prop "value" value
          ++ [("msg", JStr msg); ("path", JStr "proof_request_data");
              ("location", JStr "body")]);
|}.

Definition sign (pem msg : string) : string := pem +:+ "/" +:+ msg.

Definition cfg : Governance.config :=
  Governance.Config "http://issuer:8001"
    (list_to_map [("v1", "PEM1"); ("v2", "PEM2"); ("v3", "PEM3"); ("v4", "PEM4")]).

Definition empty_world {V L} : Effects.world V L := World ∅ ∅ [].

(** The executor is reachable and answers, or is down. *)
Definition up (t : Z) : Effects.env := Env t (λ _ _, Some (JObj [])).
Definition down (t : Z) : Effects.env := Env t (λ _ _, None).

Definition revocation : option json :=
  Some (JObj [("cred_rev_id", JStr "1"); ("rev_reg_id", JStr "RR-123")]).

Definition idA : string := "0b6c1f0e-5a53-4d0c-9d5e-3f1f5a1c2a01".
Definition idB : string := "7e0d9a44-1c07-4b9e-8f2a-6a4b0c9d2b02".

(** A request body property that is a string. *)
Definition str (s : string) : option json := Some (JStr s).

Definition admin : option json := str "admin".

(** A pending proposal with the given action and the votes of the named
    validators, as [create] stored it at instant 0. *)
Definition pending (id action : string) (votes : list string)
  : Governance.proposal :=
  Governance.Proposal id (str action) revocation admin (JStr <$> votes)
    "PENDING" (pretty 0).

Definition with_proposal (p : Governance.proposal) : Governance.world :=
  World {[ Governance.proposal_key (Governance.id p) := (p, Some 86400) ]} ∅ [].

(** What validator [pem] sends as [signature] for what Redis holds as [p]. *)
Definition signed (pem : string) (p : Governance.proposal) : option json :=
  str (sign pem (Governance.message (Governance.id p) p)).

(** The vote of validator [v] (whose key is [pem]) on what Redis holds as [p]. *)
Definition vote (v pem : string) (p : Governance.proposal) : Governance.io response :=
  Governance.approve cfg (Governance.id p) (str v) (signed pem p).

(** The same vote with the validator's name wrapped in an array. *)
Definition wrapped_vote (v pem : string) (p : Governance.proposal)
  : Governance.io response :=
  Governance.approve cfg (Governance.id p) (Some (JArr [JStr v])) (signed pem p).

(** A proposal that reached the threshold, as the third vote stored it. *)
Definition executed (id action : string) : Governance.proposal :=
  Governance.Proposal id (str action) revocation admin
    [JStr "v1"; JStr "v2"; JStr "v3"] "EXECUTED" (pretty 0).

Definition holding (p : Governance.proposal) (ex : option Z) : Governance.world :=
  World {[ Governance.proposal_key (Governance.id p) := (p, ex) ]} ∅ [].

(** *** The gateway and the log on one exchange *)

Definition gateway_cfg : Gateway.config :=
  Gateway.Config "http://agent:8021" "http://trillian-log-server:3000" (Some "s3cret").

(** The event the agent sends when the presentation of exchange X verified. *)
Definition verified_event : json :=
  JObj [("state", JStr "verified");
        ("presentation_exchange_id", JStr "X");
        ("verified", JStr "true")].

Definition exchange_X : option json := Some (JStr "X").

(** The session [POST /verify] opened for exchange X at instant 0. *)
Definition awaiting_X : Gateway.world :=
  World {[ "session:X" := (Gateway.Session (pretty 0) "REQUEST_SENT" (str "system"),
                           Some 3600) ]}
    ∅ [].

(** The transparency log after it received the given calls, in order. *)
Definition log_after (calls : list (string * json)) : TransparencyLog.world :=
  (TransparencyLog.serve
     (imap (λ i c, (up 0, TransparencyLog.Submission 0 (pretty i) (Some c.2))) calls)
     empty_world).2.

End Sample.

(** ** What the store holds, as the governance service leaves it *)

Module Ledger.
Import Governance.

(** A stored proposal is sound when no name (an approval that is a
    string) is listed twice, every approval is what was stored for a
    [validatorId] that led to a configured validator, and the status agrees
    with the number of approvals: PENDING below the threshold, EXECUTED at
    or above it. *)
Definition sound_proposal (cfg : config) (p : proposal) : Prop :=
  NoDup (names (approvals p))
  ∧ (∀ a, a ∈ approvals p →
       ∃ validatorId, pushed validatorId = a
                      ∧ is_Some (VALIDATORS cfg !! Js.template validatorId))
  ∧ ((status p = "PENDING" ∧ length (approvals p) < THRESHOLD)%nat
     ∨ (status p = "EXECUTED" ∧ THRESHOLD ≤ length (approvals p))%nat).

Definition sound (cfg : config) (w : world) : Prop :=
  ∀ key p ex, strings w !! key = Some (p, ex) → sound_proposal cfg p.

(** An accepted vote went through the call to the issuer agent. *)
Definition executor_call (cfg : config) (p : proposal) : string * json :=
  (revoke_url cfg, revoke_body p).

End Ledger.

(** ** Appends whose requests overlap *)

Module Overlap.
Import TransparencyLog.

(** The index on the receipt of a request, once the request is over. *)
Definition receipt (p : io response) : option Z := logIndex (finished p).

(** The receipt the log hands out for position [k]. *)
Definition receipt_for (logId : string) (k : nat) : response :=
  res_json 201
    (JObj [("uuid", JStr logId);
           ("logIndex", JNum (Z.of_nat k));
           ("nodepix", JStr "mock-proof")]).

(** Where the request for submission [q] stands while the log holds [es]:
    not served yet, or served with a receipt whose index is the position of
    its entry, counted from 1. *)
Definition stands `{Host} (es : list logEntry) (q : submission) (p : io response)
  : Prop :=
  p = submit q
  ∨ ∃ x k, entry_of q = Some x
           ∧ p = Ret (receipt_for (sub_logId q) (S k))
           ∧ es !! k = Some x.

(** The indices [n+1 .. n+m]. *)
Definition indices (n m : nat) : list Z :=
  (λ k, Z.of_nat (n + k)) <$> seq 1 m.

End Overlap.

(** ** Who is let through

    The middleware in front of the handlers.  A middleware either answers
    itself or calls [next()], the rest of the route, after it has set
    [req.user]; it is embedded as a function of that rest. *)

(** [jwt.verify(token, secret)] of the [jsonwebtoken] package: the payload
    of the token, or [None] where it throws. *)
Class Tokens := {
  jwt_verify : string → string → option json;
}.

Module Access.

(** [s.startsWith(p)]. *)
Fixpoint starts_with (p s : string) : bool :=
  match p, s with
  | EmptyString, _ => true
  | String a p', String b s' => bool_decide (a = b) && starts_with p' s'
  | String _ _, EmptyString => false
  end.

(** [s.split(sep)] for a separator of one character: the pieces between
    the separators, of which there is always at least one. *)
Fixpoint split (sep : ascii) (s : string) : list string :=
  match s with
  | EmptyString => [""]
  | String c t =>
      if decide (c = sep) then "" :: split sep t
      else
        match split sep t with
        | x :: xs => String c x :: xs
        | [] => [String c ""]
        end
  end.

(** The payload of the token in [Authorization: Bearer <token>]:
    [authHeader && authHeader.startsWith('Bearer ')], then
    [jwt.verify(authHeader.split(' ')[1], JWT_SECRET)] inside a [try]. *)
Definition bearer `{Tokens} (JWT_SECRET : string) (authorization : option string)
  : option json :=
  match authorization with
  | Some authHeader =>
      if bool_decide (authHeader ≠ "") && starts_with "Bearer " authHeader then
        match split " " authHeader !! 1%nat with
        | Some token => jwt_verify token JWT_SECRET
        | None => None
        end
      else None
  | None => None
  end.

Section Middleware.
Context `{Tokens} {V L : Type}.

Definition forbidden_admin : response :=
  res_json 403 (error_body "Forbidden: Admins Only").

(** [requireAdmin] of the governance service. *)
Definition requireAdmin (JWT_SECRET : string) (authorization : option string)
    (next : json → Effects.io V L response) : Effects.io V L response :=
  match bearer JWT_SECRET authorization with
  | Some payload =>
      if Gateway.is_string "admin" (Json.field "role" payload) then next payload
      else Ret forbidden_admin
  | None => Ret forbidden_admin
  end.

Definition unauthorized : response :=
  res_json 401 (error_body "Unauthorized Access").

(** [req.user] of a request that carries a listed API key. *)
Definition system_user : json :=
  JObj [("id", JStr "system"); ("role", JStr "verifier_system")].

(** [authMiddleware] of the gateway: the API key is tried first, then the
    token. *)
Definition authMiddleware (API_KEYS : list string) (JWT_SECRET : string)
    (x_api_key authorization : option string)
    (next : json → Effects.io V L response) : Effects.io V L response :=
  if match x_api_key with
     | Some apiKey => bool_decide (apiKey ≠ "") && bool_decide (apiKey ∈ API_KEYS)
     | None => false
     end
  then next system_user
  else
    match bearer JWT_SECRET authorization with
    | Some payload => next payload
    | None => Ret unauthorized
    end.

Definition forbidden : response := res_json 403 (error_body "Forbidden").

(** The role check of [POST /verify]. *)
Definition require_verifier (user : json) (next : Effects.io V L response)
  : Effects.io V L response :=
  if negb (Js.truthy (Some user))
     || (negb (Gateway.is_string "verifier" (Json.field "role" user))
         && negb (Gateway.is_string "verifier_system" (Json.field "role" user)))
  then Ret forbidden
  else next.

(** The first two functions of [POST /verify]. *)
Definition verify_guards (API_KEYS : list string) (JWT_SECRET : string)
    (x_api_key authorization : option string)
    (next : json → Effects.io V L response) : Effects.io V L response :=
  authMiddleware API_KEYS JWT_SECRET x_api_key authorization
    (λ user, require_verifier user (next user)).

End Middleware.

(** No character of [s] is [c]. *)
Fixpoint free_of (c : ascii) (s : string) : bool :=
  match s with
  | EmptyString => true
  | String a t => negb (bool_decide (a = c)) && free_of c t
  end.

End Access.

(** ** The validator keys

    At start-up the governance service fills [VALIDATORS] from the files of
    the directory [VALIDATOR_KEYS_PATH], or with one built-in validator when
    the variable is not set or names no directory. *)

Module Keys.

(** [s.endsWith(suffix)]. *)
Definition ends_with (suffix s : string) : bool :=
  bool_decide (String.list_ascii_of_string suffix
               `suffix_of` String.list_ascii_of_string s).

(** [path.basename(file, ext)] for a file name without directory part:
    the name without [ext] when it ends with it. *)
Definition basename (file ext : string) : string :=
  if ends_with ext file then
    String.string_of_list_ascii
      (take (String.length file - String.length ext)
         (String.list_ascii_of_string file))
  else file.

(** One turn of [files.forEach]. *)
Definition add_key (validators : gmap string string) (file : string * string)
  : gmap string string :=
  if ends_with ".pub" file.1
  then <[basename file.1 ".pub" := file.2]> validators
  else validators.

(** The key of the built-in validator. *)
Definition fallback_key : string :=
  "-----BEGIN PUBLIC KEY-----
MCowBQYDK2VwAyEA/WdbM+2xT5v3tE1qk6x7W2x3+7j7X9x8x3+7j7X9x8w=
-----END PUBLIC KEY-----".

(** [keys_dir] lists the entries of the directory, all of them readable
    files, with their contents, in the order of [fs.readdirSync]; it is
    [None] when [KEYS_DIR] is not set or does not exist.  The table is only
    ever read as [VALIDATORS[name].publicKey], which is the lookup of the
    map. *)
Definition load_validators (keys_dir : option (list (string * string)))
  : gmap string string :=
  match keys_dir with
  | Some files => foldl add_key ∅ files
  | None => {[ "validator_1" := fallback_key ]}
  end.

End Keys.

(** ** More test doubles *)

Module Scenario.
Import Sample.

(** The agent answers every proof request with exchange X. *)
Definition agent_answer : json :=
  JObj [("presentation_exchange_id", JStr "X");
        ("presentation_request", JStr "http://agent:8020/request/X")].

Definition agent_up (t : Z) : Effects.env := Env t (λ _ _, Some agent_answer).

(** ... or with [null]. *)
Definition agent_null (t : Z) : Effects.env := Env t (λ _ _, Some JNull).

Definition proof_request_fields : list (string * json) :=
  [("name", JStr "Check Degree"); ("version", JStr "1.0")].

Definition proof_request : option json := Some (JObj proof_request_fields).

(** A token service that knows three tokens, signed with the secret "s". *)
#[export] Instance tokens : Tokens := {|
  jwt_verify token secret :=
    if decide (secret = "s") then
      if decide (token = "t-admin") then
        Some (JObj [("username", JStr "root"); ("role", JStr "admin")])
      else if decide (token = "t-verifier") then
        Some (JObj [("id", JStr "u7"); ("role", JStr "verifier")])
      else if decide (token = "t-holder") then
        Some (JObj [("id", JStr "u9"); ("role", JStr "holder")])
      else None
    else None;
|}.

(** The rest of a route, for showing who reaches it: it answers 200 with
    [req.user]. *)
Definition echo_user (user : json) : Governance.io response :=
  Ret (res_json 200 user).

(** A keys directory with two keys and a stray file. *)
Definition keys_dir : list (string * string) :=
  [("validator_1.pub", "PEM1"); ("notes.txt", "hello"); ("validator_2.pub", "PEM2")].

(** Three submissions, the second of them without [spec]. *)
Definition submissions : list TransparencyLog.submission :=
  [TransparencyLog.Submission 1 "a" (Some (JObj [("spec", JObj [])]));
   TransparencyLog.Submission 2 "b" (Some (JObj [("kind", JStr "x")]));
   TransparencyLog.Submission 3 "c" (Some (JObj [("spec", JStr "s")]))].

End Scenario.

(** * Properties *)

(** ** [JSON.stringify] is injective *)

Section StringifyInjective.
Import Json.

#[local] Arguments String.append : simpl nomatch.

Lemma append_assoc (a b c : string) : (a +:+ b) +:+ c = a +:+ (b +:+ c).
Proof. induction a as [|x a IH]; simpl; [done|by f_equal]. Qed.

(** *** Characters of a string literal *)


Lemma unescape_escape_char c t : unescape_char (escape_char c +:+ t) = Some (c, t).
Proof. by destruct c as [[] [] [] [] [] [] [] []]. Qed.

Lemma escape_char_not_quote c t t' : escape_char c +:+ t ≠ String dquote t'.
Proof. by destruct c as [[] [] [] [] [] [] [] []]. Qed.

Lemma escape_inj s1 s2 r1 r2 :
  escape s1 +:+ String dquote r1 = escape s2 +:+ String dquote r2 →
  s1 = s2 ∧ r1 = r2.
Proof.
  revert s2. induction s1 as [|c1 s1 IH]; intros [|c2 s2]; cbn.
  - by intros [= ->].
  - rewrite append_assoc. intros Heq. symmetry in Heq.
    by apply escape_char_not_quote in Heq.
  - rewrite append_assoc. intros Heq. by apply escape_char_not_quote in Heq.
  - rewrite !append_assoc. intros Heq.
    apply (f_equal unescape_char) in Heq. rewrite !unescape_escape_char in Heq.
    injection Heq as -> Heq. apply IH in Heq as [-> ->]. done.
Qed.

Lemma quote_inj s1 s2 r1 r2 :
  quote s1 +:+ r1 = quote s2 +:+ r2 → s1 = s2 ∧ r1 = r2.
Proof.
  unfold quote; cbn. rewrite !append_assoc; cbn. intros [= Heq].
  by apply escape_inj.
Qed.


(** *** Numbers *)


Lemma digits_span d1 d2 r1 r2 :
  all_digits d1 = true → all_digits d2 = true →
  no_digit_ahead r1 = true → no_digit_ahead r2 = true →
  d1 +:+ r1 = d2 +:+ r2 → d1 = d2 ∧ r1 = r2.
Proof.
  revert d2. induction d1 as [|c1 d1 IH]; intros [|c2 d2]; simpl.
  - done.
  - intros _ [Hc _]%andb_prop Hr1 _ ->. simpl in Hr1. by rewrite Hc in Hr1.
  - intros [Hc _]%andb_prop _ _ Hr2 <-. simpl in Hr2. by rewrite Hc in Hr2.
  - intros [_ H1]%andb_prop [_ H2]%andb_prop Hr1 Hr2 [= -> Heq].
    by destruct (IH d2 H1 H2 Hr1 Hr2 Heq) as [-> ->].
Qed.

Lemma pretty_N_char_digit x : is_digit (pretty_N_char x) = true.
Proof. unfold pretty_N_char. by repeat case_match. Qed.

Lemma pretty_N_go_digits x s :
  ∃ d, all_digits d = true ∧ pretty_N_go x s = d +:+ s ∧ ((0 < x)%N → d ≠ "").
Proof.
  revert s. induction (N.lt_wf_0 x) as [x _ IH]; intros s.
  assert (x = 0 ∨ 0 < x)%N as [->|Hx] by lia.
  - exists "". rewrite pretty_N_go_0. split_and!; [done|done|lia].
  - rewrite pretty_N_go_step by done.
    destruct (IH (x `div` 10)%N (N.div_lt x 10 Hx eq_refl)
                (String (pretty_N_char (x `mod` 10)) s)) as (d & Hd & -> & _).
    exists (d +:+ String (pretty_N_char (x `mod` 10)) ""). split_and!.
    + clear -Hd. induction d as [|c d IH]; simpl in *.
      * by rewrite pretty_N_char_digit.
      * apply andb_prop in Hd as [-> Hd]. by apply IH.
    + by rewrite append_assoc.
    + intros _. by destruct d.
Qed.

Lemma pretty_N_digits (x : N) : all_digits (pretty x) = true ∧ pretty x ≠ "".
Proof.
  unfold pretty, pretty_N. case_decide as Hx; [done|].
  destruct (pretty_N_go_digits x "") as (d & Hd & -> & Hne).
  assert (d +:+ "" = d) as -> by (clear; induction d; simpl; [done|by f_equal]).
  split; [done|]. apply Hne. lia.
Qed.

(** A number is printed as an optional minus sign and a run of digits. *)
Lemma pretty_Z_shape (n : Z) :
  ∃ d, all_digits d = true ∧ d ≠ ""
       ∧ pretty n = (if bool_decide (n < 0) then "-" else "") +:+ d.
Proof.
  destruct n as [|p|p]; unfold pretty, pretty_Z.
  - by exists "0".
  - exists (pretty p). by destruct (pretty_N_digits (N.pos p)).
  - exists (pretty p). by destruct (pretty_N_digits (N.pos p)).
Qed.

Lemma number_inj (n1 n2 : Z) r1 r2 :
  no_digit_ahead r1 = true → no_digit_ahead r2 = true →
  pretty n1 +:+ r1 = pretty n2 +:+ r2 → n1 = n2 ∧ r1 = r2.
Proof.
  intros Hr1 Hr2 Heq.
  cut (pretty n1 = pretty n2 ∧ r1 = r2).
  { intros [Hp ->]. split; [|done]. by apply (inj pretty). }
  destruct (pretty_Z_shape n1) as (d1 & Hd1 & Hne1 & E1).
  destruct (pretty_Z_shape n2) as (d2 & Hd2 & Hne2 & E2).
  rewrite E1, E2 in *. clear E1 E2.
  destruct (bool_decide (n1 < 0)), (bool_decide (n2 < 0)); simpl in *.
  - injection Heq as Heq.
    by destruct (digits_span d1 d2 r1 r2 Hd1 Hd2 Hr1 Hr2 Heq) as [-> ->].
  - destruct d2 as [|c d2]; [done|]. simpl in *. injection Heq as <- _.
    by apply andb_prop in Hd2 as [? _].
  - destruct d1 as [|c d1]; [done|]. simpl in *. injection Heq as -> _.
    by apply andb_prop in Hd1 as [? _].
  - by destruct (digits_span d1 d2 r1 r2 Hd1 Hd2 Hr1 Hr2 Heq) as [-> ->].
Qed.


(** *** Values *)



Lemma stringify_array x xs :
  stringify (JArr (x :: xs)) = "[" +:+ stringify x +:+ elements xs.
Proof. reflexivity. Qed.

Lemma stringify_object k x fs :
  stringify (JObj ((k, x) :: fs))
  = "{" +:+ quote k +:+ ":" +:+ stringify x +:+ members fs.
Proof.
  simpl. do 5 f_equal.
  induction fs as [|[k' y] fs IH]; simpl; [done|]. by rewrite IH.
Qed.


Lemma stringify_head v t :
  ∃ c t', stringify v +:+ t = String c t' ∧ opens c = kind v.
Proof.
  destruct v as [|[]|n|s|[|x xs]|[|[k x] fs]];
    try (rewrite ?stringify_array, ?stringify_object; simpl; eauto; fail).
  simpl. destruct (pretty_Z_shape n) as (d & Hd & Hne & ->).
  destruct (bool_decide (n < 0)); simpl; [eauto|].
  destruct d as [|c d]; [done|]. simpl in *. apply andb_prop in Hd as [Hc _].
  eexists _, _. split; [done|]. unfold is_digit in Hc.
  apply bool_decide_eq_true_1 in Hc. unfold opens.
  repeat case_decide; first [done|lia].
Qed.

(** Two printed values that start alike are of the same kind. *)
Lemma same_head_same_kind v1 v2 r1 r2 :
  stringify v1 +:+ r1 = stringify v2 +:+ r2 → kind v1 = kind v2.
Proof.
  destruct (stringify_head v1 r1) as (c1 & t1 & -> & <-).
  destruct (stringify_head v2 r2) as (c2 & t2 & -> & <-).
  by intros [= -> _].
Qed.

Lemma not_a_value c t v r : opens c = 7%nat → String c t ≠ stringify v +:+ r.
Proof.
  intros Hc Heq. destruct (stringify_head v r) as (c' & t' & E & Hk).
  rewrite E in Heq. injection Heq as -> _. rewrite Hc in Hk. by destruct v as [|[]| | | |].
Qed.


#[local] Arguments quote : simpl never.

Lemma elements_delimited l r : no_digit_ahead (elements l +:+ r) = true.
Proof. by destruct l. Qed.

Lemma members_delimited l r : no_digit_ahead (members l +:+ r) = true.
Proof. by destruct l as [|[k y] l]. Qed.


Lemma elements_inj l1 :
  Forall separable l1 →
  ∀ l2 r1 r2, elements l1 +:+ r1 = elements l2 +:+ r2 → l1 = l2 ∧ r1 = r2.
Proof.
  induction 1 as [|x l1 Hx _ IH]; intros [|y l2] r1 r2; simpl;
    try discriminate.
  - by intros [= ->].
  - rewrite !append_assoc. intros [= Heq].
    apply Hx in Heq as [-> Heq]; [|apply elements_delimited..].
    by apply IH in Heq as [-> ->].
Qed.

Lemma members_inj l1 :
  Forall (λ kv, separable kv.2) l1 →
  ∀ l2 r1 r2, members l1 +:+ r1 = members l2 +:+ r2 → l1 = l2 ∧ r1 = r2.
Proof.
  induction 1 as [|[k x] l1 Hx _ IH]; intros [|[k' y] l2] r1 r2; simpl;
    try discriminate.
  - by intros [= ->].
  - rewrite !append_assoc. intros [= Heq].
    apply escape_inj in Heq as [-> Heq]. injection Heq as Heq.
    rewrite !append_assoc in Heq. simpl in Hx.
    apply Hx in Heq as [-> Heq]; [|apply members_delimited..].
    by apply IH in Heq as [-> ->].
Qed.

Lemma stringify_separable v : separable v.
Proof.
  induction v as [|b1|n1|s1|xs1 IH|fs1 IH] using json_nested_ind;
    intros v2 r1 r2 Hr1 Hr2 Heq;
    pose proof (same_head_same_kind _ _ _ _ Heq) as Hk;
    destruct v2 as [|b2|n2|s2|xs2|fs2];
    try (by destruct b1); try (by destruct b2); try done.
  - simpl in Heq. by injection Heq as ->.
  - destruct b1, b2; try done; simpl in Heq; by injection Heq as ->.
  - simpl in Heq. by apply number_inj in Heq as [-> ->].
  - simpl in Heq. by apply quote_inj in Heq as [-> ->].
  - destruct xs1 as [|x1 l1], xs2 as [|x2 l2];
      rewrite ?stringify_array in Heq; simpl in Heq.
    + by injection Heq as ->.
    + injection Heq as Heq. rewrite append_assoc in Heq.
      by apply not_a_value in Heq.
    + injection Heq as Heq. rewrite append_assoc in Heq. symmetry in Heq.
      by apply not_a_value in Heq.
    + injection Heq as Heq. rewrite !append_assoc in Heq.
      apply Forall_cons in IH as [Hx Hl].
      apply Hx in Heq as [-> Heq]; [|apply elements_delimited..].
      by apply (elements_inj l1 Hl) in Heq as [-> ->].
  - destruct fs1 as [|[k1 x1] l1], fs2 as [|[k2 x2] l2];
      rewrite ?stringify_object in Heq; simpl in Heq.
    + by injection Heq as ->.
    + discriminate.
    + discriminate.
    + injection Heq as Heq.
      rewrite !append_assoc in Heq. simpl in Heq.
      apply escape_inj in Heq as [-> Heq]. injection Heq as Heq.
      rewrite !append_assoc in Heq.
      apply Forall_cons in IH as [Hx Hl]. simpl in Hx.
      apply Hx in Heq as [-> Heq]; [|apply members_delimited..].
      by apply (members_inj l1 Hl) in Heq as [-> ->].
Qed.

Lemma append_empty_r (s : string) : s +:+ "" = s.
Proof. induction s; simpl; [done|by f_equal]. Qed.

(** [JSON.stringify] is injective on JSON values. *)
Lemma stringify_inj v1 v2 : stringify v1 = stringify v2 → v1 = v2.
Proof.
  intros Heq. apply (stringify_separable v1 v2 "" ""); [done..|].
  by rewrite !append_empty_r.
Qed.

(** ... and a value is never printed as [undefined]. *)
Lemma stringify_opt_inj o1 o2 : stringify_opt o1 = stringify_opt o2 → o1 = o2.
Proof.
  destruct o1 as [v1|], o2 as [v2|]; simpl; intros Heq.
  - f_equal. by apply stringify_inj.
  - exfalso. rewrite <- (append_empty_r (stringify v1)) in Heq.
    symmetry in Heq. by apply not_a_value in Heq.
  - exfalso. rewrite <- (append_empty_r (stringify v2)) in Heq.
    by apply not_a_value in Heq.
  - done.
Qed.

End StringifyInjective.

(** ** A printed value holds no other after a colon *)

Section ReadingValues.
Import Json.

#[local] Arguments String.append : simpl nomatch.
#[local] Arguments quote : simpl never.

Lemma read_app st a b :
  read st (a +:+ b) = match read st a with Some st' => read st' b | None => None end.
Proof.
  revert st. induction a as [|c a IH]; intros st; simpl; [done|].
  by destruct (read_char st c).
Qed.

Lemma read_escape_char c d : read (Inside, d) (escape_char c) = Some (Inside, d).
Proof. by destruct c as [[] [] [] [] [] [] [] []]. Qed.

Lemma read_escape s d : read (Inside, d) (escape s) = Some (Inside, d).
Proof.
  induction s as [|c s IH]; simpl; [done|].
  by rewrite read_app, read_escape_char.
Qed.

(** A string literal is read from quote to quote. *)
Lemma read_quote s d r : read (Outside, d) (quote s +:+ r) = read (Outside, d) r.
Proof.
  unfold quote. simpl. rewrite append_assoc, read_app, read_escape. done.
Qed.

Lemma read_digit c d : is_digit c = true → read_char (Outside, d) c = Some (Outside, d).
Proof. by destruct c as [[] [] [] [] [] [] [] []]. Qed.

Lemma read_digits ds d r :
  all_digits ds = true → read (Outside, d) (ds +:+ r) = read (Outside, d) r.
Proof.
  induction ds as [|c ds IH]; simpl; [done|].
  intros [Hc Hds]%andb_prop. rewrite read_digit by done. by apply IH.
Qed.

Lemma read_number (n : Z) d r :
  read (Outside, d) (pretty n +:+ r) = read (Outside, d) r.
Proof.
  destruct (pretty_Z_shape n) as (ds & Hds & _ & ->).
  rewrite append_assoc. destruct (bool_decide (n < 0)); simpl.
  - by apply read_digits.
  - by apply read_digits.
Qed.

Lemma read_colon d : 0 < d → read_char (Outside, d) ":" = Some (Outside, d).
Proof. intros Hd. unfold read_char; simpl. by rewrite decide_True. Qed.

Lemma read_elements l d r :
  Forall (λ v, ∀ d r, 0 ≤ d → read (Outside, d) (stringify v +:+ r) = read (Outside, d) r) l →
  0 ≤ d →
  read (Outside, d + 1) (elements l +:+ r) = read (Outside, d) r.
Proof.
  intros Hl Hd. induction Hl as [|x l Hx _ IH]; simpl.
  - do 2 f_equal. lia.
  - rewrite !append_assoc. rewrite Hx by lia. done.
Qed.

Lemma read_members l d r :
  Forall (λ kv : string * json,
            ∀ d r, 0 ≤ d →
                   read (Outside, d) (stringify kv.2 +:+ r) = read (Outside, d) r) l →
  0 ≤ d →
  read (Outside, d + 1) (members l +:+ r) = read (Outside, d) r.
Proof.
  intros Hl Hd. induction Hl as [|[k x] l Hx _ IH]; simpl.
  - do 2 f_equal. lia.
  - rewrite !append_assoc, read_app, read_escape. simpl.
    rewrite read_colon by lia. rewrite !append_assoc.
    simpl in Hx. rewrite Hx by lia. done.
Qed.

(** A printed value is read from its first character to its last, and the
    reader is then where it was. *)
Lemma read_stringify v d r :
  0 ≤ d → read (Outside, d) (stringify v +:+ r) = read (Outside, d) r.
Proof.
  revert d r.
  induction v as [|b|n|s|xs IH|fs IH] using json_nested_ind; intros d r Hd.
  - done.
  - by destruct b.
  - simpl. apply read_number.
  - simpl. apply read_quote.
  - destruct xs as [|x xs]; [simpl; do 2 f_equal; lia|].
    rewrite stringify_array. simpl. rewrite !append_assoc.
    apply Forall_cons in IH as [Hx Hxs]. rewrite Hx by lia.
    by apply read_elements.
  - destruct fs as [|[k x] fs]; [simpl; do 2 f_equal; lia|].
    rewrite stringify_object. simpl. rewrite !append_assoc, read_app, read_escape.
    simpl. rewrite read_colon by lia.
    rewrite !append_assoc.
    apply Forall_cons in IH as [Hx Hfs]. simpl in Hx. rewrite Hx by lia.
    by apply read_members.
Qed.

Lemma read_stringify_opt o d :
  0 ≤ d → read (Outside, d) (stringify_opt o) = Some (Outside, d).
Proof.
  intros Hd. destruct o as [v|]; simpl; [|done].
  rewrite <- (append_empty_r (stringify v)). by rewrite read_stringify.
Qed.

(** Two readers of one text, one starting outside the string literals and
    one inside, never agree on where they are. *)
Lemma read_out_of_step s m1 m2 d1 d2 r1 r2 :
  (m1 = Outside ∧ m2 = Inside) ∨ (m1 = Inside ∧ m2 = Outside) →
  read (m1, d1) s = Some r1 → read (m2, d2) s = Some r2 →
  (r1.1 = Outside ∧ r2.1 = Inside) ∨ (r1.1 = Inside ∧ r2.1 = Outside).
Proof.
  revert m1 m2 d1 d2.
  induction s as [|c s IH]; intros m1 m2 d1 d2 Hm; simpl.
  - by intros [= <-] [= <-].
  - destruct (read_char (m1, d1) c) as [[m1' d1']|] eqn:H1; [|done].
    destruct (read_char (m2, d2) c) as [[m2' d2']|] eqn:H2; [|done].
    apply IH. unfold read_char in H1, H2; simpl in H1, H2.
    destruct Hm as [[-> ->]|[-> ->]]; repeat case_decide; simplify_eq; auto.
Qed.

(** No printed value ends with a colon and another printed value. *)
Lemma no_value_after_colon o1 o2 r :
  stringify_opt o1 ≠ r +:+ ":" +:+ stringify_opt o2.
Proof.
  intros Heq.
  pose proof (read_stringify_opt o1 0 (Z.le_refl 0)) as Hread.
  rewrite Heq, read_app in Hread.
  destruct (read (Outside, 0) r) as [[m d]|]; [|done].
  simpl in Hread. unfold read_char in Hread; simpl in Hread.
  destruct m.
  - case_decide as Hd; [|done].
    rewrite read_stringify_opt in Hread by lia. injection Hread as ->. lia.
  - destruct (read_out_of_step (stringify_opt o2) Outside Inside 0 d
                (Outside, 0) (Outside, 0)) as [[_ [=]]|[[=] _]]; [by left| |done].
    by apply read_stringify_opt.
  - destruct (read_out_of_step (stringify_opt o2) Outside Inside 0 d
                (Outside, 0) (Outside, 0)) as [[_ [=]]|[[=] _]]; [by left| |done].
    by apply read_stringify_opt.
Qed.

Lemma append_split (a1 a2 b1 b2 : string) :
  a1 +:+ b1 = a2 +:+ b2 →
  ∃ r, (a2 = a1 +:+ r ∧ b1 = r +:+ b2) ∨ (a1 = a2 +:+ r ∧ b2 = r +:+ b1).
Proof.
  revert a2. induction a1 as [|c a1 IH]; intros a2; simpl.
  - intros ->. exists a2. by left.
  - destruct a2 as [|c2 a2]; simpl.
    + intros <-. exists (String c a1). by right.
    + intros [= -> Heq]. destruct (IH a2 Heq) as (r & [[-> ->]|[-> ->]]);
        exists r; [by left|by right].
Qed.

(** A text [a:v], where [v] is a printed value, determines [a] and [v],
    whatever characters [a] is made of. *)
Lemma text_and_value_inj a1 a2 o1 o2 :
  a1 +:+ ":" +:+ stringify_opt o1 = a2 +:+ ":" +:+ stringify_opt o2 →
  a1 = a2 ∧ o1 = o2.
Proof.
  intros Heq. destruct (append_split _ _ _ _ Heq) as (r & [[-> Hr]|[-> Hr]]).
  - destruct r as [|c r]; simpl in Hr.
    + injection Hr as Hr. rewrite append_empty_r. split; [done|].
      by apply stringify_opt_inj.
    + injection Hr as <- Hr. by apply no_value_after_colon in Hr.
  - destruct r as [|c r]; simpl in Hr.
    + injection Hr as Hr. rewrite append_empty_r. split; [done|].
      symmetry. by apply stringify_opt_inj.
    + injection Hr as <- Hr. by apply no_value_after_colon in Hr.
Qed.

End ReadingValues.


(** ** The store *)

Section StoreFacts.
Context {V L : Type}.
Implicit Types (w : Effects.world V L) (key : string).

Lemma redis_get_set t t' key v ex w :
  expired t' (fmap (λ s, t + s) ex) = false →
  redis_get t' (redis_set t key v ex w) key = Some v.
Proof.
  intros Hex. unfold redis_get, redis_set; simpl.
  rewrite lookup_insert_eq. by rewrite Hex.
Qed.

Lemma redis_get_Some t w key v :
  redis_get t w key = Some v →
  ∃ ex, strings w !! key = Some (v, ex) ∧ expired t ex = false.
Proof.
  unfold redis_get. destruct (strings w !! key) as [[v' ex]|]; [|done].
  destruct (expired t ex) eqn:Hex; [done|].
  intros [= ->]. eauto.
Qed.

End StoreFacts.

(** ** The vote handler, case by case *)

Section Approve.
Context `{Host}.
Import Governance.

Implicit Types (w : Governance.world) (p : proposal) (cfg : config).
Implicit Types (validatorId signature : option json).

Lemma proposal_key_inj : Inj (=) (=) proposal_key.
Proof. unfold proposal_key. apply _. Qed.

(** The duplicate check on a name compares it with the names listed. *)
Lemma includes_name l v : includes l (Some (JStr v)) = true ↔ JStr v ∈ l.
Proof.
  cbn. rewrite existsb_exists. split.
  - intros (a & Ha%list_elem_of_In & Hsame).
    destruct a; try done. cbn in Hsame.
    by apply bool_decide_eq_true_1 in Hsame as ->.
  - intros Hin. exists (JStr v). split; [by apply list_elem_of_In|].
    cbn. by apply bool_decide_eq_true_2.
Qed.

(** No array and no object is ever found among the approvals. *)
Lemma includes_object l validatorId :
  match validatorId with
  | Some (JArr _) | Some (JObj _) | None => True
  | _ => False
  end →
  includes l validatorId = false.
Proof.
  intros Hv. destruct validatorId as [v|]; [|done]. cbn.
  apply not_true_iff_false. rewrite existsb_exists.
  intros (a & _ & Hsame). by destruct a, v.
Qed.

Lemma is_revocation_true p :
  is_revocation p = true ↔ action p = Some (JStr "REVOKE_CREDENTIAL").
Proof.
  unfold is_revocation. destruct (action p) as [[| | |s| |]|]; try done.
  rewrite bool_decide_eq_true. split; [by intros ->|by intros [= ->]].
Qed.

Lemma is_revocation_false p :
  is_revocation p = false ↔ action p ≠ Some (JStr "REVOKE_CREDENTIAL").
Proof.
  rewrite <- is_revocation_true. by destruct (is_revocation p).
Qed.

(** Every run of the handler is of one of three kinds: the request is
    turned down and nothing happens; the executor is called and fails,
    and nothing is stored; the vote is stored. *)
Lemma approve_cases cfg e w id validatorId signature r w' :
  run e (approve cfg id validatorId signature) w = (r, w') →
  (w' = w ∧ ∃ code msg,
      r = Some (res_json code (error_body msg)) ∧ (400 ≤ code)%nat)
  ∨ (∃ p, stored (now e) w id = Some p
        ∧ status p = "PENDING" ∧ includes (approvals p) validatorId = false
        ∧ signature_ok cfg id validatorId signature p
        ∧ calls_executor validatorId p = true
        ∧ net e (revoke_url cfg) (revoke_body p) = None
        ∧ r = Some internal_error
        ∧ w' = send (revoke_url cfg) (revoke_body p) w)
  ∨ (∃ p, stored (now e) w id = Some p
        ∧ status p = "PENDING" ∧ includes (approvals p) validatorId = false
        ∧ signature_ok cfg id validatorId signature p
        ∧ r = Some (res_json 200 (JObj [("status", JStr (status (voted validatorId p)))]))
        ∧ w' = redis_set (now e) (proposal_key id) (voted validatorId p) None
                 (if calls_executor validatorId p
                  then send (revoke_url cfg) (revoke_body p) w
                  else w)).
Proof.
  unfold approve, stored, voted, calls_executor, signature_ok; cbn.
  destruct (redis_get (now e) w (proposal_key id)) as [p|] eqn:Hget; cbn;
    [|intros [= <- <-]; left; split; [done|do 2 eexists; split; [done|lia]]].
  case_bool_decide as Hst; cbn; [intros [= <- <-]; left; split; [done|do 2 eexists; split; [done|lia]]|].
  assert (status p = "PENDING") as Hpend
    by (destruct (decide (status p = "PENDING")); [done|by destruct Hst]).
  destruct (includes (approvals p) validatorId) eqn:Hin; cbn;
    [intros [= <- <-]; left; split; [done|do 2 eexists; split; [done|lia]]|].
  destruct (VALIDATORS cfg !! Js.template validatorId) as [pem|] eqn:Hpem; cbn;
    [|intros [= <- <-]; left; split; [done|do 2 eexists; split; [done|lia]]].
  destruct (crypto_createPublicKey pem) as [key|] eqn:Hkey; cbn;
    [|intros [= <- <-]; left; split; [done|do 2 eexists; split; [done|lia]]].
  destruct (signature_bytes signature) as [sig|] eqn:Hsig; cbn;
    [|intros [= <- <-]; left; split; [done|do 2 eexists; split; [done|lia]]].
  destruct (crypto_verify _ key sig) eqn:Hver; cbn;
    [|intros [= <- <-]; left; split; [done|do 2 eexists; split; [done|lia]]].
  change (is_revocation (set_approvals _ p)) with (is_revocation p).
  change (revoke_body (set_approvals _ p)) with (revoke_body p).
  destruct (bool_decide (THRESHOLD ≤ _)%nat) eqn:Hthr; cbn.
  - destruct (is_revocation p) eqn:Hact; cbn.
    + destruct (net e _ _) as [data|] eqn:Hnet; cbn; intros [= <- <-].
      * right; right. exists p. rewrite ?Hthr, ?Hact; cbn. split_and!; eauto 10.
      * right; left. exists p. rewrite ?Hthr, ?Hact; cbn. split_and!; eauto 10.
    + intros [= <- <-]. right; right. exists p. rewrite ?Hthr, ?Hact; cbn. split_and!; eauto 10.
  - intros [= <- <-]. right; right. exists p. rewrite ?Hthr, ?Hact; cbn. split_and!; eauto 10.
Qed.

End Approve.

(** ** Finalized proposals and duplicate votes *)

Section Votes.
Context `{Host}.
Import Governance.

Implicit Types (w : Governance.world) (p : proposal) (cfg : config).
Implicit Types (validatorId signature : option json).

Lemma create_run e t uuid username act pl w :
  run e (create t uuid username act pl) w
  = (Some (res_json 201 (JObj [("proposalId", JStr uuid); ("status", JStr "PENDING")])),
     redis_set (now e) (proposal_key uuid)
       (Proposal uuid act pl username [] "PENDING" (Date_toISOString t))
       (Some 86400) w).
Proof. reflexivity. Qed.

(** A vote on an identifier Redis does not return. *)
Lemma approve_missing cfg e w id validatorId signature :
  stored (now e) w id = None →
  run e (approve cfg id validatorId signature) w
  = (Some (res_json 404 (error_body "Not Found")), w).
Proof. intros Hnone. unfold approve, stored in *; cbn. by rewrite Hnone. Qed.

(** A vote on a record that is not pending is turned down at once. *)
Lemma approve_not_pending cfg e w id validatorId signature p :
  stored (now e) w id = Some p →
  status p ≠ "PENDING" →
  run e (approve cfg id validatorId signature) w
  = (Some (res_json 400 (error_body "Finalized")), w).
Proof.
  unfold approve, stored; cbn. intros -> Hst; cbn.
  by rewrite bool_decide_eq_true_2.
Qed.

(** A request leaves alone every record that is not pending. *)
Lemma handle_keeps_finalized cfg e r w id p ex :
  strings w !! proposal_key id = Some (p, ex) →
  status p ≠ "PENDING" →
  fresh_for id (e, r) →
  strings (run e (handle cfg r) w).2 !! proposal_key id = Some (p, ex).
Proof.
  intros Hw Hst Hfresh. destruct r as [t uuid username act pl|id' v s]; unfold handle.
  - rewrite create_run; cbn. rewrite lookup_insert_ne; [done|].
    intros Heq%proposal_key_inj. by apply Hfresh.
  - destruct (run e (approve cfg id' v s) w) as [r w'] eqn:Hrun; cbn.
    apply approve_cases in Hrun
      as [(-> & _)|[(p0 & _ & _ & _ & _ & _ & _ & _ & ->)
                   |(p0 & Hget & Hpend & _ & _ & _ & ->)]];
      [done|done|].
    destruct (decide (id' = id)) as [->|Hne].
    + apply redis_get_Some in Hget as (ex0 & Hw0 & _).
      rewrite Hw in Hw0. by simplify_eq.
    + cbn. rewrite lookup_insert_ne.
      * by destruct (calls_executor v p0).
      * by intros Heq%proposal_key_inj.
Qed.

Lemma serve_keeps_finalized cfg reqs w id p ex :
  strings w !! proposal_key id = Some (p, ex) →
  status p ≠ "PENDING" →
  Forall (fresh_for id) reqs →
  strings (serve cfg reqs w).2 !! proposal_key id = Some (p, ex).
Proof.
  unfold serve. intros Hw Hst Hfresh. revert w Hw.
  induction Hfresh as [|[e r] reqs Hr _ IH]; intros w Hw; [done|].
  cbn. destruct (run e (handle cfg r) w) as [r1 w1] eqn:Hrun.
  specialize (IH w1). destruct (run_all _ w1) as [rs w2]; cbn in *.
  apply IH. change w1 with (r1, w1).2. rewrite <- Hrun.
  by apply handle_keeps_finalized.
Qed.

Lemma approvals_voted validatorId p :
  approvals (voted validatorId p) = approvals p ++ [pushed validatorId].
Proof. unfold voted. by case_bool_decide. Qed.

Lemma status_voted validatorId p :
  status p = "PENDING" →
  status (voted validatorId p) = "PENDING"
  ∨ status (voted validatorId p) = "EXECUTED".
Proof. intros Hpend. unfold voted. case_bool_decide; cbn; auto. Qed.

(** The service writes no status but PENDING and EXECUTED. *)
Lemma handle_two_statuses cfg e r w :
  two_statuses w → two_statuses (run e (handle cfg r) w).2.
Proof.
  intros Hw. destruct r as [t uuid username act pl|id v s]; unfold handle.
  - rewrite create_run. intros key p ex; cbn.
    rewrite lookup_insert. case_decide as Hk; [|apply Hw].
    intros [= <- <-]. by left.
  - destruct (run e (approve cfg id v s) w) as [r w'] eqn:Hrun; cbn.
    apply approve_cases in Hrun
      as [(-> & _)|[(p0 & _ & _ & _ & _ & _ & _ & _ & ->)
                   |(p0 & _ & Hpend & _ & _ & _ & ->)]];
      [done|done|].
    intros key p ex; cbn. rewrite lookup_insert. case_decide as Hk.
    + intros [= <- <-]. by apply status_voted.
    + destruct (calls_executor v p0); apply Hw.
Qed.

Lemma serve_two_statuses cfg reqs w :
  two_statuses w → two_statuses (serve cfg reqs w).2.
Proof.
  unfold serve. revert w.
  induction reqs as [|[e r] reqs IH]; intros w Hw; [done|].
  cbn. destruct (run e (handle cfg r) w) as [r1 w1] eqn:Hrun.
  specialize (IH w1). destruct (run_all _ w1) as [rs w2]; cbn in *.
  apply IH. change w1 with (r1, w1).2. rewrite <- Hrun.
  by apply handle_two_statuses.
Qed.

(** C5, as the code has it.  A vote whose GET returns a proposal with
    status EXECUTED is answered 400 "Finalized" and changes nothing, neither
    Redis nor the list of calls made; the request is over as soon as its GET
    is served.  While requests are served one after the other (votes on any
    proposal, creations under fresh identifiers) the record of an EXECUTED
    proposal never changes again.  The service knows no status EXPIRED:
    served from a Redis that holds PENDING and EXECUTED proposals it stores
    nothing else, and a proposal whose time to live has lapsed is simply
    absent, so that a vote on it is answered 404 "Not Found". *)
Theorem executed_proposal_rejects_votes cfg w id p ex
    (Hstored : strings w !! proposal_key id = Some (p, ex))
    (Hfinal : status p = "EXECUTED") :
  (∀ e validatorId signature,
     expired (now e) ex = false →
     run e (approve cfg id validatorId signature) w
     = (Some (res_json 400 (error_body "Finalized")), w)
     ∧ step e (approve cfg id validatorId signature) w
       = (Ret (res_json 400 (error_body "Finalized")), w))
  ∧ (∀ reqs,
       Forall (fresh_for id) reqs →
       strings (serve cfg reqs w).2 !! proposal_key id = Some (p, ex))
  ∧ (∀ reqs w0, two_statuses w0 → two_statuses (serve cfg reqs w0).2)
  ∧ (∀ e w' id' p' deadline validatorId signature,
       strings w' !! proposal_key id' = Some (p', Some deadline) →
       deadline ≤ now e →
       run e (approve cfg id' validatorId signature) w'
       = (Some (res_json 404 (error_body "Not Found")), w')).
Proof.
  assert (status p ≠ "PENDING") as Hst by (by rewrite Hfinal).
  split_and!.
  - intros e v s Hex.
    assert (stored (now e) w id = Some p) as Hget.
    { unfold stored, redis_get. by rewrite Hstored, Hex. }
    split; [by apply approve_not_pending with p|].
    unfold approve, stored in *; cbn. rewrite Hget; cbn.
    by rewrite bool_decide_eq_true_2.
  - intros reqs Hfresh. by apply serve_keeps_finalized.
  - intros reqs w0. apply serve_two_statuses.
  - intros e w' id' p' deadline v s Hw' Hlate. apply approve_missing.
    unfold stored, redis_get. rewrite Hw'; cbn.
    by rewrite bool_decide_eq_true_2.
Qed.

(** A vote whose [validatorId] is found among the approvals. *)
Lemma approve_duplicate cfg e w id validatorId signature p :
  stored (now e) w id = Some p →
  status p = "PENDING" →
  includes (approvals p) validatorId = true →
  run e (approve cfg id validatorId signature) w
  = (Some (res_json 409 (error_body "Voted")), w).
Proof.
  intros Hstored Hpending Hvoted.
  unfold approve; cbn. unfold stored in Hstored. rewrite Hstored; cbn.
  rewrite bool_decide_eq_false_2 by (by intros []).
  by rewrite Hvoted.
Qed.

End Votes.

Section VotesExamples.
Import Governance Sample.

(** C5, on an executed proposal: a fourth validator's vote, the record
    after it, and a vote on a proposal whose day is over. *)
Lemma executed_proposal_rejects_votes_witness :
  let w := holding (executed idA "REVOKE_CREDENTIAL") None in
  let lapsed := with_proposal (pending idB "REVOKE_CREDENTIAL" []) in
  run (up 100) (approve cfg idA (str "v4") (str "sig")) w
  = (Some (res_json 400 (error_body "Finalized")), w)
  ∧ strings (serve cfg [(up 100, PostApprove idA (str "v4") (str "sig"))] w).2
      !! proposal_key idA
    = Some (executed idA "REVOKE_CREDENTIAL", None)
  ∧ run (up 86400) (vote "v1" "PEM1" (pending idB "REVOKE_CREDENTIAL" [])) lapsed
    = (Some (res_json 404 (error_body "Not Found")), lapsed).
Proof.
  intros w lapsed.
  destruct (executed_proposal_rejects_votes cfg w idA
              (executed idA "REVOKE_CREDENTIAL") None)
    as (Hvote & Hseq & _ & Hlapsed).
  - vm_compute; reflexivity.
  - reflexivity.
  - split_and!.
    + apply Hvote. reflexivity.
    + apply Hseq. repeat constructor.
    + apply (Hlapsed (up 86400) lapsed idB (pending idB "REVOKE_CREDENTIAL" []) 86400).
      * vm_compute; reflexivity.
      * cbn; lia.
Defined.

(** C5, refuted as stated.  Three votes on a proposal that v1 approved
    are in flight together.  The vote of v2 reads the proposal first; the
    votes of v3 and v4 are then served to their end, and the second of them
    stores EXECUTED after calling the issuer agent.  When the vote of v2
    resumes it writes back what it read, with its own approval: the
    proposal is PENDING again, with two approvals, and can be voted on. *)
Lemma inflight_vote_reopens_executed :
  let p := pending idA "REVOKE_CREDENTIAL" ["v1"] in
  let votes := [vote "v2" "PEM2" p; vote "v3" "PEM3" p; vote "v4" "PEM4" p] in
  let before := interleave (up 100) [0; 1; 1; 2; 2; 2]%nat votes (with_proposal p) in
  let after := interleave (up 100) [0; 1; 1; 2; 2; 2; 0]%nat votes (with_proposal p) in
  stored 100 before.2 idA
  = Some (Proposal idA (str "REVOKE_CREDENTIAL") revocation admin
            [JStr "v1"; JStr "v3"; JStr "v4"] "EXECUTED" (pretty 0))
  ∧ length (executions cfg before.2) = 1%nat
  ∧ stored 100 after.2 idA = Some (pending idA "REVOKE_CREDENTIAL" ["v1"; "v2"])
  ∧ finished <$> after.1
    = [Some (res_json 200 (JObj [("status", JStr "PENDING")]));
       Some (res_json 200 (JObj [("status", JStr "PENDING")]));
       Some (res_json 200 (JObj [("status", JStr "EXECUTED")]))]
  ∧ (run (up 200) (vote "v3" "PEM3" p) after.2).1
    = Some (res_json 200 (JObj [("status", JStr "EXECUTED")])).
Proof. vm_compute. done. Qed.

(** C6, on a validator that votes again.  Validator v1 has approved the
    proposal.  Its vote sent again is answered 409; sent with the name
    wrapped in an array, [["v1"]], the same signature is accepted: the array
    is found in no list of approvals, and as a property key it reads "v1".
    A third such request brings the proposal to the threshold: it is
    EXECUTED, and the issuer agent is called, on the word of one
    validator. *)
Lemma wrapped_name_votes_again :
  let p := pending idA "REVOKE_CREDENTIAL" ["v1"] in
  let again := run (up 100) (vote "v1" "PEM1" p) (with_proposal p) in
  let second := run (up 100) (wrapped_vote "v1" "PEM1" p) (with_proposal p) in
  let third := run (up 101) (wrapped_vote "v1" "PEM1" p) second.2 in
  again = (Some (res_json 409 (error_body "Voted")), with_proposal p)
  ∧ second.1 = Some (res_json 200 (JObj [("status", JStr "PENDING")]))
  ∧ approvals <$> stored 100 second.2 idA
    = Some [JStr "v1"; JArr [JStr "v1"]]
  ∧ third.1 = Some (res_json 200 (JObj [("status", JStr "EXECUTED")]))
  ∧ approvals <$> stored 101 third.2 idA
    = Some [JStr "v1"; JArr [JStr "v1"]; JArr [JStr "v1"]]
  ∧ length (executions cfg third.2) = 1%nat.
Proof. vm_compute. done. Qed.

End VotesExamples.

(** ** Accepted votes: threshold, executor and expiry *)

Section Accepted.
Context `{Host}.
Import Governance.

Implicit Types (w : Governance.world) (p : proposal) (cfg : config).
Implicit Types (validatorId signature : option json).

Lemma revoke_body_set_approvals l p :
  revoke_body (set_approvals l p) = revoke_body p.
Proof. reflexivity. Qed.

(** What the handler does with a vote that passes all its checks. *)
Lemma approve_valid cfg e w id validatorId signature p :
  stored (now e) w id = Some p →
  status p = "PENDING" →
  includes (approvals p) validatorId = false →
  signature_ok cfg id validatorId signature p →
  run e (approve cfg id validatorId signature) w
  = if calls_executor validatorId p then
      match net e (revoke_url cfg) (revoke_body p) with
      | Some _ =>
          (Some (res_json 200 (JObj [("status", JStr "EXECUTED")])),
           redis_set (now e) (proposal_key id) (voted validatorId p) None
             (send (revoke_url cfg) (revoke_body p) w))
      | None => (Some internal_error, send (revoke_url cfg) (revoke_body p) w)
      end
    else
      (Some (res_json 200 (JObj [("status", JStr (status (voted validatorId p)))])),
       redis_set (now e) (proposal_key id) (voted validatorId p) None w).
Proof.
  intros Hget Hpend Hnew (pem & key & sig & Hpem & Hkey & Hsig & Hver).
  unfold approve, stored, voted, calls_executor in *; cbn.
  rewrite Hget; cbn. rewrite Hpend; cbn.
  rewrite (bool_decide_eq_false_2 (_ ≠ _)) by (intros Hne; by apply Hne); cbn.
  rewrite Hnew; cbn.
  rewrite Hpem; cbn. rewrite Hkey; cbn. rewrite Hsig; cbn. rewrite Hver; cbn.
  change (is_revocation (set_approvals _ p)) with (is_revocation p).
  destruct (bool_decide (THRESHOLD ≤ _)%nat) eqn:Hthr; cbn; [|done].
  destruct (is_revocation p) eqn:Hact; cbn; [|done].
  rewrite revoke_body_set_approvals.
  by destruct (net e _ _).
Qed.

Lemma status_voted_below validatorId p :
  status p = "PENDING" →
  (length (approvals p) + 1 < THRESHOLD)%nat →
  voted validatorId p = set_approvals (approvals p ++ [pushed validatorId]) p.
Proof.
  intros _ Hlt. unfold voted; cbn.
  rewrite bool_decide_eq_false_2; [done|]. rewrite length_app; cbn. lia.
Qed.

Lemma status_voted_reached validatorId p :
  (THRESHOLD ≤ length (approvals p) + 1)%nat →
  voted validatorId p
  = set_status "EXECUTED" (set_approvals (approvals p ++ [pushed validatorId]) p).
Proof.
  intros Hle. unfold voted; cbn.
  rewrite bool_decide_eq_true_2; [done|]. rewrite length_app; cbn. lia.
Qed.

(** C1, as the code has it.  Take a pending proposal and a vote that
    passes the checks ([validatorId] is not found among the approvals, the
    signature verifies).
    - Below the threshold the vote is stored, the status stays PENDING and
      no call leaves the service.
    - When the vote brings the approvals to the threshold (3) and the
      action is not REVOKE_CREDENTIAL, EXECUTED is stored and no call
      leaves the service.
    - When it brings them to the threshold, the action is
      REVOKE_CREDENTIAL and the issuer agent answers, EXECUTED is stored
      and exactly one call is made, to the revocation endpoint, with the
      properties of the payload and [publish: true]. *)
Theorem threshold_vote_executes_revocations cfg e w id validatorId signature p
    (Hstored : stored (now e) w id = Some p)
    (Hpending : status p = "PENDING")
    (Hnew : includes (approvals p) validatorId = false)
    (Hsig : signature_ok cfg id validatorId signature p) :
  let result := run e (approve cfg id validatorId signature) w in
  let p1 := set_approvals (approvals p ++ [pushed validatorId]) p in
  ((length (approvals p) + 1 < THRESHOLD)%nat →
     result = (Some (res_json 200 (JObj [("status", JStr "PENDING")])),
               redis_set (now e) (proposal_key id) p1 None w)
     ∧ status p1 = "PENDING" ∧ outbox result.2 = outbox w)
  ∧ ((THRESHOLD ≤ length (approvals p) + 1)%nat →
     action p ≠ Some (JStr "REVOKE_CREDENTIAL") →
     result = (Some (res_json 200 (JObj [("status", JStr "EXECUTED")])),
               redis_set (now e) (proposal_key id) (set_status "EXECUTED" p1) None w)
     ∧ outbox result.2 = outbox w)
  ∧ ((THRESHOLD ≤ length (approvals p) + 1)%nat →
     action p = Some (JStr "REVOKE_CREDENTIAL") →
     is_Some (net e (revoke_url cfg) (revoke_body p)) →
     result = (Some (res_json 200 (JObj [("status", JStr "EXECUTED")])),
               redis_set (now e) (proposal_key id) (set_status "EXECUTED" p1) None
                 (send (revoke_url cfg) (revoke_body p) w))
     ∧ outbox result.2 = outbox w ++ [(revoke_url cfg, revoke_body p)]).
Proof.
  intros result p1. subst result.
  rewrite (approve_valid cfg e w id validatorId signature p) by done.
  unfold calls_executor. rewrite length_app; cbn [length].
  split_and!.
  - intros Hlt. rewrite bool_decide_eq_false_2 by lia; cbn.
    rewrite status_voted_below by done. cbn. by rewrite Hpending.
  - intros Hle Hact%is_revocation_false. rewrite bool_decide_eq_true_2 by lia.
    rewrite Hact; cbn.
    by rewrite status_voted_reached.
  - intros Hle Hact%is_revocation_true [data Hnet].
    rewrite bool_decide_eq_true_2 by lia.
    rewrite Hact; cbn.
    rewrite Hnet. by rewrite status_voted_reached.
Qed.

(** C3, as the code has it.  When a valid vote brings a
    REVOKE_CREDENTIAL proposal to the threshold, the call to the issuer
    agent is made first: after the first two commands of the handler (the
    GET and the call) Redis is as it was.  If the call succeeds, EXECUTED
    and the vote are stored after it.  If it fails or times out, nothing
    is stored: the answer is 500 and Redis still holds the proposal as
    PENDING with the approvals it had. *)
Theorem executor_call_precedes_commit cfg e w id validatorId signature p
    (Hstored : stored (now e) w id = Some p)
    (Hpending : status p = "PENDING")
    (Hnew : includes (approvals p) validatorId = false)
    (Hsig : signature_ok cfg id validatorId signature p)
    (Hreached : (THRESHOLD ≤ length (approvals p) + 1)%nat)
    (Haction : action p = Some (JStr "REVOKE_CREDENTIAL")) :
  let handler := approve cfg id validatorId signature in
  let called := send (revoke_url cfg) (revoke_body p) w in
  (∃ rest, interleave e [0; 0]%nat [handler] w = ([rest], called))
  ∧ strings called = strings w
  ∧ (is_Some (net e (revoke_url cfg) (revoke_body p)) →
     run e handler w
     = (Some (res_json 200 (JObj [("status", JStr "EXECUTED")])),
        redis_set (now e) (proposal_key id) (voted validatorId p) None called))
  ∧ (net e (revoke_url cfg) (revoke_body p) = None →
     run e handler w = (Some internal_error, called)
     ∧ ∀ t, stored t called id = stored t w id).
Proof.
  intros handler called. subst handler called.
  assert (calls_executor validatorId p = true) as Hcalls.
  { unfold calls_executor. rewrite length_app; cbn [length].
    rewrite bool_decide_eq_true_2 by lia. by apply is_revocation_true. }
  rewrite (approve_valid cfg e w id validatorId signature p) by done.
  rewrite Hcalls. split_and!.
  - destruct Hsig as (pem & key & sig & Hpem & Hkey & Hsig & Hver).
    apply is_revocation_true in Haction.
    unfold approve, stored in *; cbn.
    rewrite Hstored; cbn. rewrite Hpending; cbn.
    rewrite (bool_decide_eq_false_2 (_ ≠ _)) by (intros Hne; by apply Hne); cbn.
    rewrite Hnew; cbn.
    rewrite Hpem; cbn. rewrite Hkey; cbn. rewrite Hsig; cbn. rewrite Hver; cbn.
    change (is_revocation (set_approvals _ p)) with (is_revocation p).
    rewrite (bool_decide_eq_true_2 (_ ≤ _)%nat)
      by (rewrite length_app; cbn [length]; lia); cbn.
    rewrite Haction; cbn.
    eauto.
  - done.
  - by intros [data ->].
  - by intros ->.
Qed.

(** A vote by a name that is not in the [VALIDATORS] table makes the
    handler throw; the error handler answers 500 "Internal Error". *)
Lemma approve_unknown_validator cfg e w id validatorId signature p :
  stored (now e) w id = Some p →
  status p = "PENDING" →
  includes (approvals p) validatorId = false →
  VALIDATORS cfg !! Js.template validatorId = None →
  run e (approve cfg id validatorId signature) w = (Some internal_error, w).
Proof.
  intros Hget Hpend Hnew Hnone. unfold approve, stored in *; cbn.
  rewrite Hget; cbn. rewrite Hpend; cbn.
  rewrite (bool_decide_eq_false_2 (_ ≠ _)) by (intros Hne; by apply Hne); cbn.
  rewrite Hnew; cbn.
  by rewrite Hnone.
Qed.

(** A signature that does not verify under the validator's key is
    answered 401 "Bad Sig", whatever is wrong with it. *)
Lemma approve_bad_signature cfg e w id validatorId signature p pem key sig :
  stored (now e) w id = Some p →
  status p = "PENDING" →
  includes (approvals p) validatorId = false →
  VALIDATORS cfg !! Js.template validatorId = Some pem →
  crypto_createPublicKey pem = Some key →
  signature_bytes signature = Some sig →
  crypto_verify (message id p) key sig = false →
  run e (approve cfg id validatorId signature) w
  = (Some (res_json 401 (error_body "Bad Sig")), w).
Proof.
  intros Hget Hpend Hnew Hpem Hkey Hsig Hver. unfold approve, stored in *; cbn.
  rewrite Hget; cbn. rewrite Hpend; cbn.
  rewrite (bool_decide_eq_false_2 (_ ≠ _)) by (intros Hne; by apply Hne); cbn.
  rewrite Hnew; cbn.
  rewrite Hpem; cbn. rewrite Hkey; cbn. rewrite Hsig; cbn. by rewrite Hver.
Qed.

(** C10. [create] stores the proposal with a time to live of 86400
    seconds, after which Redis no longer returns it.  An accepted vote
    writes the record back without a time to live: from then on Redis
    returns the proposal at every instant. *)
Theorem accepted_vote_discards_expiry cfg :
  (∀ e t uuid username act pl w,
     let w1 := (run e (create t uuid username act pl) w).2 in
     (∃ p, strings w1 !! proposal_key uuid = Some (p, Some (now e + 86400)))
     ∧ (∀ t', t' < now e + 86400 → is_Some (stored t' w1 uuid))
     ∧ (∀ t', now e + 86400 ≤ t' → stored t' w1 uuid = None))
  ∧ (∀ e w id validatorId signature body w',
       run e (approve cfg id validatorId signature) w
       = (Some (res_json 200 body), w') →
       (∃ p, stored (now e) w id = Some p
             ∧ strings w' !! proposal_key id = Some (voted validatorId p, None))
       ∧ (∀ t', stored t' w' id
                = (voted validatorId <$> stored (now e) w id))).
Proof.
  split.
  - intros e t uuid username act pl w w1. subst w1.
    rewrite create_run; cbn. rewrite lookup_insert_eq. split_and!.
    + eauto.
    + intros t' Ht. unfold stored, redis_get; cbn.
      rewrite lookup_insert_eq; cbn.
      rewrite bool_decide_eq_false_2 by lia. eauto.
    + intros t' Ht. unfold stored, redis_get; cbn.
      rewrite lookup_insert_eq; cbn.
      by rewrite bool_decide_eq_true_2 by lia.
  - intros e w id v s body w' Hrun.
    apply approve_cases in Hrun
      as [(_ & code & msg & [= -> _] & Hcode)
         |[(p0 & _ & _ & _ & _ & _ & _ & [=] & _)
          |(p0 & Hget & _ & _ & _ & _ & ->)]]; [lia|].
    assert (strings
              (redis_set (now e) (proposal_key id) (voted v p0) None
                 (if calls_executor v p0
                  then send (revoke_url cfg) (revoke_body p0) w
                  else w)) !! proposal_key id = Some (voted v p0, None)) as Hnew.
    { cbn. by rewrite lookup_insert_eq. }
    split; [eauto|].
    intros t'. rewrite Hget; cbn. unfold stored, redis_get. by rewrite Hnew.
Qed.

End Accepted.

(** ** The handlers on concrete requests *)

Section GovernanceExamples.
Import Governance Sample.

(** C1, refuted as stated: the third vote on a proposal whose action is
    not REVOKE_CREDENTIAL stores EXECUTED, and the executor is not called. *)
Lemma third_vote_without_execution :
  let p := pending idA "ROTATE_ISSUER_KEY" ["v1"; "v2"] in
  let result := run (up 100) (vote "v3" "PEM3" p) (with_proposal p) in
  result.1 = Some (res_json 200 (JObj [("status", JStr "EXECUTED")]))
  ∧ status <$> stored 100 result.2 idA = Some "EXECUTED"
  ∧ approvals <$> stored 100 result.2 idA = Some [JStr "v1"; JStr "v2"; JStr "v3"]
  ∧ executions cfg result.2 = [].
Proof. vm_compute. done. Qed.

(** C1, as the code has it, on the third vote for a revocation. *)
Lemma threshold_vote_executes_revocations_witness :
  let p := pending idA "REVOKE_CREDENTIAL" ["v1"; "v2"] in
  let result := run (up 100) (vote "v3" "PEM3" p) (with_proposal p) in
  result.1 = Some (res_json 200 (JObj [("status", JStr "EXECUTED")]))
  ∧ outbox result.2
    = [("http://issuer:8001/revocation/revoke",
        JObj [("cred_rev_id", JStr "1"); ("rev_reg_id", JStr "RR-123");
              ("publish", JBool true)])].
Proof.
  intros p result.
  destruct (threshold_vote_executes_revocations cfg (up 100) (with_proposal p)
              idA (str "v3") (signed "PEM3" p) p)
    as (_ & _ & Hrevoke).
  - vm_compute; reflexivity.
  - reflexivity.
  - vm_compute; reflexivity.
  - exists "PEM3", "PEM3", (sign "PEM3" (message idA p)).
    split_and!; vm_compute; reflexivity.
  - destruct Hrevoke as [Hresult Hout].
    + vm_compute; lia.
    + reflexivity.
    + vm_compute; eauto.
    + split; [exact (f_equal fst Hresult)|exact Hout].
Defined.

(** C3, refuted as stated: the issuer agent is down when the third vote on
    a revocation arrives.  The call has been attempted, the answer is 500,
    and Redis holds the proposal as before: PENDING, without the vote. *)
Lemma failed_execution_loses_the_vote :
  let p := pending idA "REVOKE_CREDENTIAL" ["v1"; "v2"] in
  let result := run (down 100) (vote "v3" "PEM3" p) (with_proposal p) in
  result.1 = Some (res_json 500 (error_body "Internal Error"))
  ∧ length (executions cfg result.2) = 1%nat
  ∧ stored 100 result.2 idA = Some p
  ∧ status p = "PENDING" ∧ approvals p = [JStr "v1"; JStr "v2"].
Proof. vm_compute. done. Qed.

(** C3, as the code has it, with the issuer agent down. *)
Lemma executor_call_precedes_commit_witness :
  let p := pending idA "REVOKE_CREDENTIAL" ["v1"; "v2"] in
  let w := with_proposal p in
  run (down 100) (vote "v3" "PEM3" p) w
  = (Some internal_error, send (revoke_url cfg) (revoke_body p) w)
  ∧ ∀ t, stored t (send (revoke_url cfg) (revoke_body p) w) idA = stored t w idA.
Proof.
  intros p w.
  destruct (executor_call_precedes_commit cfg (down 100) w idA (str "v3")
              (signed "PEM3" p) p)
    as (_ & _ & _ & Hdown).
  - vm_compute; reflexivity.
  - reflexivity.
  - vm_compute; reflexivity.
  - exists "PEM3", "PEM3", (sign "PEM3" (message idA p)).
    split_and!; vm_compute; reflexivity.
  - vm_compute; lia.
  - reflexivity.
  - apply Hdown. reflexivity.
Defined.

(** C8, on a vote signed by a name the service does not know: the answer
    is the 500 "Internal Error" of the catch-all error handler, the very
    answer given when the issuer agent is down. *)
Lemma unknown_validator_internal_error :
  let p := pending idA "REVOKE_CREDENTIAL" ["v1"; "v2"] in
  let w := with_proposal p in
  VALIDATORS cfg !! "mallory" = None
  ∧ run (up 100) (approve cfg idA (str "mallory") (str "c2lnbmF0dXJl")) w
    = (Some (res_json 500 (error_body "Internal Error")), w)
  ∧ (run (down 100) (vote "v3" "PEM3" p) w).1
    = Some (res_json 500 (error_body "Internal Error"))
  ∧ run (up 100) (approve cfg idA (str "v3") (str "!!not base64!!")) w
    = (Some (res_json 401 (error_body "Bad Sig")), w)
  ∧ run (up 100) (approve cfg idA (str "v3") (signed "PEM4" p)) w
    = (Some (res_json 401 (error_body "Bad Sig")), w).
Proof.
  intros p w.
  assert (VALIDATORS cfg !! "mallory" = None) as Hunknown by (vm_compute; done).
  split_and!; [done| |vm_compute; done..].
  apply approve_unknown_validator with p; [vm_compute; done|done| |done].
  vm_compute; reflexivity.
Qed.

(** C10, on a proposal created at instant 0 and approved at instant 100. *)
Lemma accepted_vote_discards_expiry_witness :
  let created :=
    (run (up 0) (create 0 idA admin (str "REVOKE_CREDENTIAL") revocation)
       empty_world).2 in
  let approved :=
    (run (up 100) (vote "v1" "PEM1" (pending idA "REVOKE_CREDENTIAL" [])) created).2 in
  stored 86400 created idA = None
  ∧ ∀ t, stored t approved idA = Some (pending idA "REVOKE_CREDENTIAL" ["v1"]).
Proof.
  intros created approved.
  destruct (accepted_vote_discards_expiry cfg) as [Hcreate Hvote].
  split.
  - apply (Hcreate (up 0) 0 idA admin (str "REVOKE_CREDENTIAL") revocation
             empty_world).
    vm_compute. done.
  - intros t.
    destruct (Hvote (up 100) created idA (str "v1")
                (signed "PEM1" (pending idA "REVOKE_CREDENTIAL" []))
                (JObj [("status", JStr "PENDING")]) approved) as [_ Hall].
    + vm_compute. reflexivity.
    + rewrite Hall. vm_compute. reflexivity.
Defined.

End GovernanceExamples.

(** ** Votes served one after the other, and votes that overlap *)

Section Serial.
Context `{Host}.
Import Governance.

Implicit Types (w : Governance.world) (p : proposal) (cfg : config).

Lemma serve_cons cfg e r reqs w :
  serve cfg ((e, r) :: reqs) w
  = ((run e (handle cfg r) w).1 :: (serve cfg reqs (run e (handle cfg r) w).2).1,
     (serve cfg reqs (run e (handle cfg r) w).2).2).
Proof.
  unfold serve; cbn. destruct (run e (handle cfg r) w) as [r1 w1]; cbn.
  by destruct (run_all _ w1).
Qed.

Lemma handle_keeps_vote cfg e r w id v :
  fresh_for id (e, r) → has_vote id v w → has_vote id v (run e (handle cfg r) w).2.
Proof.
  intros Hfresh (p & ex & Hw & Hv).
  destruct r as [t uuid username act pl|id' v' s]; unfold handle.
  - rewrite create_run; cbn. exists p, ex. split; [|done]. cbn.
    rewrite lookup_insert_ne; [done|]. intros Heq%proposal_key_inj. by apply Hfresh.
  - destruct (run e (approve cfg id' v' s) w) as [r w'] eqn:Hrun; cbn.
    apply approve_cases in Hrun
      as [(-> & _)|[(p0 & _ & _ & _ & _ & _ & _ & _ & ->)
                   |(p0 & Hget & _ & _ & _ & _ & ->)]];
      [by exists p, ex|by exists p, ex|].
    destruct (decide (id' = id)) as [->|Hne].
    + apply redis_get_Some in Hget as (ex0 & Hw0 & _).
      rewrite Hw in Hw0. injection Hw0 as <- <-.
      exists (voted v' p), None. cbn. rewrite lookup_insert_eq. split; [done|].
      rewrite approvals_voted. apply elem_of_app. by left.
    + exists p, ex. split; [|done]. cbn. rewrite lookup_insert_ne.
      * by destruct (calls_executor v' p0).
      * by intros Heq%proposal_key_inj.
Qed.

Lemma serve_keeps_vote cfg reqs w id v :
  Forall (fresh_for id) reqs → has_vote id v w → has_vote id v (serve cfg reqs w).2.
Proof.
  intros Hfresh. revert w.
  induction Hfresh as [|[e r] reqs Hr _ IH]; intros w Hw; [done|].
  rewrite serve_cons; cbn. apply IH. by apply handle_keeps_vote.
Qed.

Lemma approve_accepted cfg e w id v s body w' :
  run e (approve cfg id v s) w = (Some (res_json 200 body), w') →
  ∃ p, body = JObj [("status", JStr (status (voted v p)))]
       ∧ strings w' !! proposal_key id = Some (voted v p, None).
Proof.
  intros Hrun.
  apply approve_cases in Hrun
    as [(_ & code & msg & [= -> _] & Hcode)
       |[(p0 & _ & _ & _ & _ & _ & _ & [=] & _)
        |(p0 & _ & _ & _ & _ & [= ->] & ->)]]; [lia|].
  exists p0. split; [done|]. cbn. by rewrite lookup_insert_eq.
Qed.

Lemma serve_executed_for_good cfg reqs w id :
  Forall (fresh_for id) reqs →
  executed_for_good id w →
  ∀ j e v s,
    reqs !! j = Some (e, PostApprove id v s) →
    (serve cfg reqs w).1 !! j = Some (Some (res_json 400 (error_body "Finalized"))).
Proof.
  intros Hfresh. revert w.
  induction Hfresh as [|[e0 r0] reqs Hr _ IH]; intros w (p & Hw & Hst) j e v s Hj;
    [done|].
  rewrite serve_cons; cbn. destruct j as [|j]; cbn in *.
  - injection Hj as -> ->. unfold handle.
    rewrite (approve_not_pending cfg e w id v s p); [done| |by rewrite Hst].
    unfold stored, redis_get. by rewrite Hw.
  - eapply IH; [|done]. exists p. split; [|done].
    apply handle_keeps_finalized; [done|by rewrite Hst|done].
Qed.

(** Every vote on [id] that was answered 200 is among the stored approvals
    of [id] once all requests have been served. *)
Lemma serve_records_accepted_votes cfg reqs w id :
  Forall (fresh_for id) reqs →
  ∀ i e v s body,
    reqs !! i = Some (e, PostApprove id v s) →
    (serve cfg reqs w).1 !! i = Some (Some (res_json 200 body)) →
    has_vote id (pushed v) (serve cfg reqs w).2.
Proof.
  intros Hfresh. revert w. induction Hfresh as [|[e0 r0] reqs Hr Hfresh IH];
    intros w i e v s body Hi Hres; [done|].
  rewrite serve_cons in *; cbn -[run approve create handle] in *.
  destruct i as [|i]; cbn -[run approve create handle] in *.
  - injection Hi as -> ->. apply (inj Some) in Hres. unfold handle in *.
    destruct (run e (approve cfg id v s) w) as [r1 w1] eqn:Hrun;
      cbn -[run approve create handle] in *.
    subst r1. apply approve_accepted in Hrun as (p & _ & Hw1).
    apply serve_keeps_vote; [done|].
    exists (voted v p), None. split; [done|].
    rewrite approvals_voted. apply elem_of_app. right. apply list_elem_of_here.
  - by eapply IH.
Qed.

(** After a vote on [id] was answered EXECUTED, every later vote on [id]
    is answered 400 "Finalized". *)
Lemma serve_executes_once cfg reqs w id :
  Forall (fresh_for id) reqs →
  ∀ i j e v s e' v' s',
    (i < j)%nat →
    reqs !! i = Some (e, PostApprove id v s) →
    (serve cfg reqs w).1 !! i
    = Some (Some (res_json 200 (JObj [("status", JStr "EXECUTED")]))) →
    reqs !! j = Some (e', PostApprove id v' s') →
    (serve cfg reqs w).1 !! j = Some (Some (res_json 400 (error_body "Finalized"))).
Proof.
  intros Hfresh. revert w. induction Hfresh as [|[e0 r0] reqs Hr Hfresh IH];
    intros w i j e v s e' v' s' Hij Hi Hres Hj; [done|].
  rewrite serve_cons in *; cbn -[run approve create handle] in *.
  destruct j as [|j]; [lia|].
  destruct i as [|i]; cbn -[run approve create handle] in *.
  - injection Hi as -> ->. apply (inj Some) in Hres. unfold handle in *.
    destruct (run e (approve cfg id v s) w) as [r1 w1] eqn:Hrun;
      cbn -[run approve create handle] in *.
    subst r1. apply approve_accepted in Hrun as (p & [= Hst] & Hw1).
    eapply serve_executed_for_good; [done| |done].
    exists (voted v p). by split.
  - eapply (IH _ i j); [lia|done..].
Qed.

End Serial.


(** ** Verified events and audit appends *)

Section Webhook.
Context `{Host}.
Import Gateway.

Implicit Types (w : Gateway.world) (s : session) (cfg : config).

(** A successful event for a session Redis still holds: one append is
    requested from the log, then the session is stored as
    VERIFIED_AND_LOGGED with a new time to live.  The status the session had
    plays no part. *)
Lemma present_proof_success cfg e t body w s :
  is_string "verified" (Json.field "state" body) = true →
  success_flag (Json.field "verified" body) = true →
  session_at (now e) w (Json.field "presentation_exchange_id" body) = Some s →
  run e (present_proof cfg t body) w
  = (Some (res_send 200 ""),
     redis_set (now e) (session_key (Json.field "presentation_exchange_id" body))
       (set_status "VERIFIED_AND_LOGGED" s) (Some 3600)
       (send (log_url cfg)
          (log_request t (Json.field "presentation_exchange_id" body) body) w)).
Proof.
  intros Hstate Hflag Hget. unfold present_proof, session_at in *; cbn.
  rewrite Hstate; cbn. rewrite Hget; cbn. by rewrite Hflag.
Qed.

(** C4, as the code has it.  Take a successful "verified" event for an
    exchange whose session Redis holds, delivered at [e1] and again at [e2]
    within the session's time to live.  Both deliveries are answered 200.
    After the first the session is VERIFIED_AND_LOGGED, and the second
    leaves that record as it is; but each delivery requests one append from
    the audit log, so two deliveries request two. *)
Theorem every_delivery_appends cfg e1 e2 body w s
    (Hstate : is_string "verified" (Json.field "state" body) = true)
    (Hsuccess : success_flag (Json.field "verified" body) = true)
    (Hlive : session_at (now e1) w (Json.field "presentation_exchange_id" body)
             = Some s)
    (Hlater : now e1 ≤ now e2 < now e1 + 3600) :
  let x := Json.field "presentation_exchange_id" body in
  let first := run e1 (present_proof cfg (now e1) body) w in
  let second := run e2 (present_proof cfg (now e2) body) first.2 in
  first.1 = Some (res_send 200 "")
  ∧ second.1 = Some (res_send 200 "")
  ∧ session_at (now e2) first.2 x = Some (set_status "VERIFIED_AND_LOGGED" s)
  ∧ session_at (now e2) second.2 x = Some (set_status "VERIFIED_AND_LOGGED" s)
  ∧ outbox first.2 = outbox w ++ [(log_url cfg, log_request (now e1) x body)]
  ∧ outbox second.2
    = outbox w ++ [(log_url cfg, log_request (now e1) x body);
                   (log_url cfg, log_request (now e2) x body)].
Proof.
  intros x first second. subst first second x.
  rewrite (present_proof_success cfg e1 (now e1) body w s) by done; cbn [fst snd].
  set (x := Json.field "presentation_exchange_id" body) in *.
  set (w1 := redis_set _ _ _ _ _).
  assert (session_at (now e2) w1 x = Some (set_status "VERIFIED_AND_LOGGED" s)) as H1.
  { unfold session_at, w1. apply redis_get_set. cbn.
    apply bool_decide_eq_false_2. lia. }
  rewrite (present_proof_success cfg e2 (now e2) body w1
             (set_status "VERIFIED_AND_LOGGED" s)) by done; cbn [fst snd].
  split_and!; try done.
  - unfold session_at. apply redis_get_set. cbn.
    apply bool_decide_eq_false_2. lia.
  - cbn. by rewrite <- app_assoc.
Qed.

End Webhook.

Section WebhookExamples.
Import Gateway Sample.

(** C4, refuted as stated: the "verified" event of exchange X is delivered
    twice.  The session is VERIFIED_AND_LOGGED after the first delivery,
    yet the second one requests an append as well, and the log that
    receives the two requests holds two entries. *)
Lemma second_delivery_appends_again :
  let first := run (up 10) (present_proof gateway_cfg 10 verified_event) awaiting_X in
  let second := run (up 20) (present_proof gateway_cfg 20 verified_event) first.2 in
  status <$> session_at 20 first.2 exchange_X = Some "VERIFIED_AND_LOGGED"
  ∧ length (audit_appends gateway_cfg first.2) = 1%nat
  ∧ length (audit_appends gateway_cfg second.2) = 2%nat
  ∧ length (TransparencyLog.entries (log_after (audit_appends gateway_cfg second.2)))
    = 2%nat.
Proof. vm_compute. done. Qed.

(** C4, as the code has it, on exchange X. *)
Lemma every_delivery_appends_witness :
  let first := run (up 10) (present_proof gateway_cfg 10 verified_event) awaiting_X in
  let second := run (up 20) (present_proof gateway_cfg 20 verified_event) first.2 in
  session_at 20 second.2 exchange_X
  = Some (Session (pretty 0) "VERIFIED_AND_LOGGED" (str "system"))
  ∧ outbox second.2
    = [(log_url gateway_cfg, log_request 10 exchange_X verified_event);
       (log_url gateway_cfg, log_request 20 exchange_X verified_event)].
Proof.
  intros first second.
  destruct (every_delivery_appends gateway_cfg (up 10) (up 20) verified_event
              awaiting_X (Session (pretty 0) "REQUEST_SENT" (str "system")))
    as (_ & _ & _ & Hsession & _ & Hout).
  - reflexivity.
  - reflexivity.
  - vm_compute; reflexivity.
  - cbn; lia.
  - split; [exact Hsession|exact Hout].
Defined.

End WebhookExamples.

(** ** The audit log *)

Section AuditLog.
Context `{Host}.
Import TransparencyLog.

Implicit Types (w : TransparencyLog.world) (q : submission).

Lemma entries_rpush x w : entries (redis_rpush log_key x w) = entries w ++ [x].
Proof. unfold entries, redis_list, redis_rpush; cbn. by rewrite lookup_insert_eq. Qed.

(** A well-formed submission is appended and receives the new length of
    the list as its index; any other is answered 400 and adds nothing. *)
Lemma submit_run e q w :
  run e (submit q) w
  = match entry_of q with
    | Some x =>
        (Some (res_json 201
                 (JObj [("uuid", JStr (sub_logId q));
                        ("logIndex", JNum (Z.of_nat (length (entries w) + 1)));
                        ("nodepix", JStr "mock-proof")])),
         redis_rpush log_key x w)
    | None => (Some (res_json 400 (error_body "Invalid payload structure")), w)
    end.
Proof.
  unfold submit, append, entry_of, well_formed.
  destruct q as [t u pl]; cbn [sub_payload sub_time sub_logId].
  destruct (Js.truthy pl) eqn:Ht; cbn -[Js.truthy]; [|done].
  destruct (Js.truthy (pl ≫= Json.field "spec")) eqn:Hs; cbn -[Js.truthy]; [|done].
  destruct pl as [b|]; [|done]. cbn.
  fold (entries (redis_rpush log_key (LogEntry u (Date_toISOString t) b) w)).
  rewrite entries_rpush, length_app. done.
Qed.

(** The handler issues a single command; once Redis has served it the
    request is over. *)
Lemma submit_one_step e q w :
  ∃ r, step e (submit q) w = (Ret r, (run e (submit q) w).2)
       ∧ (run e (submit q) w).1 = Some r.
Proof.
  unfold submit, append.
  destruct q as [t u pl]; cbn [sub_payload sub_time sub_logId].
  destruct (Js.truthy pl) eqn:Ht; cbn -[Js.truthy]; [|eauto].
  destruct (Js.truthy (pl ≫= Json.field "spec")) eqn:Hs; cbn -[Js.truthy]; [|eauto].
  destruct pl as [b|]; [|done]. cbn. eauto.
Qed.

Lemma serve_cons_log e q reqs w :
  serve ((e, q) :: reqs) w
  = ((run e (submit q) w).1 :: (serve reqs (run e (submit q) w).2).1,
     (serve reqs (run e (submit q) w).2).2).
Proof.
  unfold serve; cbn. destruct (run e (submit q) w) as [r1 w1]; cbn.
  by destruct (run_all _ w1).
Qed.

Lemma logIndex_receipt u n :
  logIndex (Some (res_json 201
                    (JObj [("uuid", JStr u); ("logIndex", JNum n);
                           ("nodepix", JStr "mock-proof")]))) = Some n.
Proof. reflexivity. Qed.

Lemma serve_log reqs w :
  receipts (serve reqs w).1
  = (λ k, Z.of_nat (length (entries w) + k))
      <$> seq 1 (length (omap (λ r, entry_of r.2) reqs))
  ∧ entries (serve reqs w).2 = entries w ++ omap (λ r, entry_of r.2) reqs.
Proof.
  revert w. induction reqs as [|[e q] reqs IH]; intros w.
  { cbn. by rewrite app_nil_r. }
  rewrite serve_cons_log; cbn [fst snd]. rewrite submit_run.
  change (omap (λ r, entry_of r.2) ((e, q) :: reqs))
    with (match entry_of q with
          | Some y => y :: omap (λ r, entry_of r.2) reqs
          | None => omap (λ r : env * submission, entry_of r.2) reqs
          end).
  unfold receipts in *.
  destruct (entry_of q) as [x|] eqn:Hq; cbn [fst snd].
  - destruct (IH (redis_rpush log_key x w)) as [IHr IHe].
    change (omap logIndex (?r :: ?rs))
      with (match logIndex r with
            | Some y => y :: omap logIndex rs
            | None => omap logIndex rs
            end).
    rewrite logIndex_receipt, IHr, IHe, entries_rpush. split.
    + cbn [length seq fmap list_fmap]. f_equal.
      rewrite <- (fmap_S_seq 1), <- list_fmap_compose.
      apply list_fmap_ext. intros _ k _. cbn. rewrite length_app; cbn. f_equal. lia.
    + by rewrite <- app_assoc.
  - apply IH.
Qed.

(** C9. Whatever submissions the log is sent, and whatever it held
    before:
    - each well-formed submission gets a receipt with an index, and only
      those do;
    - the indices handed out are, in order, the successors of the length
      the list had: n+1, n+2, ...; so each is one more than the one before,
      and no two are equal;
    - the list afterwards is the list before, followed by the accepted
      entries in the order of their requests: nothing is dropped or moved;
    - the handler reaches Redis with one RPUSH and is done, so requests
      that overlap are served in some order, one after the other. *)
Theorem audit_indices_are_consecutive reqs w :
  let result := serve reqs w in
  let n := length (entries w) in
  (∀ i e q, reqs !! i = Some (e, q) →
     ∃ r, result.1 !! i = Some r
          ∧ (is_Some (logIndex r) ↔ well_formed (sub_payload q) = true))
  ∧ receipts result.1
    = (λ k, Z.of_nat (n + k)) <$> seq 1 (length (receipts result.1))
  ∧ (∀ i a b, receipts result.1 !! i = Some a →
              receipts result.1 !! S i = Some b → b = a + 1)
  ∧ (∀ i j a, receipts result.1 !! i = Some a →
              receipts result.1 !! j = Some a → i = j)
  ∧ entries result.2 = entries w ++ omap (λ r, entry_of r.2) reqs
  ∧ (∀ e q w0, ∃ r, step e (submit q) w0 = (Ret r, (run e (submit q) w0).2)
                    ∧ (run e (submit q) w0).1 = Some r).
Proof.
  intros result n. subst result n.
  destruct (serve_log reqs w) as [Hr He].
  assert (length (receipts (serve reqs w).1)
          = length (omap (λ r, entry_of r.2) reqs)) as Hlen.
  { rewrite Hr. by rewrite length_fmap, length_seq. }
  rewrite Hlen.
  assert (∀ i a, receipts (serve reqs w).1 !! i = Some a →
                 a = Z.of_nat (length (entries w) + S i)) as Hnth.
  { intros i a. rewrite Hr, list_lookup_fmap.
    destruct (seq 1 _ !! i) as [k|] eqn:Hk; [|done].
    apply lookup_seq in Hk as [-> _]. by intros [= <-]. }
  split_and!; [|done| | |done|intros; apply submit_one_step].
  - clear Hr He Hlen Hnth. revert w.
    induction reqs as [|[e0 q0] reqs IH]; intros w i e q Hi; [done|].
    rewrite serve_cons_log; cbn [fst snd]. destruct i as [|i]; cbn in Hi |- *.
    + injection Hi as -> ->. eexists; split; [done|].
      rewrite submit_run. unfold entry_of.
      destruct (well_formed (sub_payload q)) eqn:Hwf.
      * destruct (sub_payload q) as [b|] eqn:Hb; [|done]. cbn. split; eauto.
      * cbn. split; [intros [? [=]]|done].
    + by eapply IH.
  - intros i a b Ha Hb. apply Hnth in Ha, Hb. lia.
  - intros i j a Ha Hb. apply Hnth in Ha, Hb. lia.
Qed.

End AuditLog.

(** ** How the records are updated *)

Section Updates.
Context `{Host}.


End Updates.

Section OverlappingVotes.
Import Governance Sample.



End OverlappingVotes.

(** ** Signatures are bound to one proposal *)

Section Binding.
Context `{Host}.
Import Governance.

Implicit Types (w : Governance.world) (p : proposal) (cfg : config).

#[local] Arguments String.append : simpl nomatch.

Lemma hex_run_length n s t :
  hex_run n s = Some t → String.length s = (n + String.length t)%nat.
Proof.
  revert s. induction n as [|n IH]; intros s; simpl.
  - by intros [= ->].
  - destruct s as [|c s]; [done|]. destruct (is_hex c); [|done].
    intros Hrun%IH. simpl. by rewrite Hrun.
Qed.

Lemma hex_group_length n s t :
  hex_group n s = Some t → String.length s = (n + 1 + String.length t)%nat.
Proof.
  unfold hex_group. destruct (hex_run n s) as [[|c u]|] eqn:Hrun; [done| |done].
  apply hex_run_length in Hrun.
  destruct (decide (c = "-"%char)) as [->|Hne].
  - intros [= ->]. rewrite Hrun. simpl. lia.
  - intros Hc. exfalso. apply Hne. clear -Hc.
    by destruct c as [[] [] [] [] [] [] [] []].
Qed.

Lemma is_uuid_length s : is_uuid s = true → String.length s = 36%nat.
Proof.
  unfold is_uuid.
  destruct (hex_group 8 s) as [t1|] eqn:H1; cbn -[hex_run hex_group]; [|done].
  destruct (hex_group 4 t1) as [t2|] eqn:H2; cbn -[hex_run hex_group]; [|done].
  destruct (hex_group 4 t2) as [t3|] eqn:H3; cbn -[hex_run hex_group]; [|done].
  destruct (hex_group 4 t3) as [t4|] eqn:H4; cbn -[hex_run hex_group]; [|done].
  destruct (hex_run 12 t4) as [[|c t5]|] eqn:H5; [|done..].
  intros _.
  apply hex_group_length in H1, H2, H3, H4. apply hex_run_length in H5.
  simpl in H5. lia.
Qed.

Lemma append_same_length (a b x y : string) :
  String.length a = String.length b → a +:+ x = b +:+ y → a = b ∧ x = y.
Proof.
  revert b. induction a as [|c a IH]; intros [|d b]; simpl; try done.
  intros [= Hlen] [= -> Heq]. by destruct (IH b Hlen Heq) as [-> ->].
Qed.

(** The signed text determines the identifier, the text the action is
    printed as, and the payload. *)
Lemma message_inj idA idB A B :
  is_uuid idA = true → is_uuid idB = true →
  message idA A = message idB B →
  idA = idB
  ∧ Js.template (action A) = Js.template (action B)
  ∧ payload A = payload B.
Proof.
  intros HA%is_uuid_length HB%is_uuid_length Heq. unfold message in Heq.
  apply append_same_length in Heq as [-> Heq]; [|congruence].
  split; [done|]. simpl in Heq. injection Heq as Heq.
  by apply text_and_value_inj.
Qed.


End Binding.

Section BindingExamples.
Import Governance Sample.

Lemma sample_binding m m' (key : KeyObject) (sig : string) :
  crypto_verify m key sig = true → crypto_verify m' key sig = true → m = m'.
Proof.
  cbn. intros ->%bool_decide_eq_true_1 Heq%bool_decide_eq_true_1.
  apply (inj (String.append key)) in Heq. cbn in Heq. by injection Heq.
Qed.


(** C7, on an action that is not a string.  The administrator's request
    carries the action as an array, [["REVOKE_CREDENTIAL"]]; the proposal is
    stored with it.  The text to be signed prints the array like the string
    "REVOKE_CREDENTIAL": what validators v1, v2 and v3 signed for the
    revocation (the same identifier and payload, the action a string) is
    accepted as their votes on this other proposal.  After the third the
    proposal is EXECUTED, and since its action is not the string, the
    issuer agent has not been called. *)
Lemma array_action_signs_like_its_text :
  let A := pending idA "REVOKE_CREDENTIAL" [] in
  let B := set_action (Some (JArr [JStr "REVOKE_CREDENTIAL"])) A in
  let created :=
    (run (up 0) (create 0 idA admin (Some (JArr [JStr "REVOKE_CREDENTIAL"]))
                   revocation) empty_world).2 in
  let result :=
    serve cfg [(up 10, PostApprove idA (str "v1") (signed "PEM1" A));
               (up 20, PostApprove idA (str "v2") (signed "PEM2" A));
               (up 30, PostApprove idA (str "v3") (signed "PEM3" A))] created in
  stored 0 created idA = Some B
  ∧ action B ≠ action A
  ∧ message idA B = message idA A
  ∧ result.1
    = [Some (res_json 200 (JObj [("status", JStr "PENDING")]));
       Some (res_json 200 (JObj [("status", JStr "PENDING")]));
       Some (res_json 200 (JObj [("status", JStr "EXECUTED")]))]
  ∧ status <$> stored 30 result.2 idA = Some "EXECUTED"
  ∧ action <$> stored 30 result.2 idA = Some (Some (JArr [JStr "REVOKE_CREDENTIAL"]))
  ∧ executions cfg result.2 = [].
Proof. vm_compute. split_and!; done. Qed.

End BindingExamples.


(** * Further properties of the services *)

(** ** The vote handler: what it leaves alone *)

Section VoteFrame.
Context `{Host}.
Import Governance Ledger.

Implicit Types (w : Governance.world) (p : proposal) (cfg : config).
Implicit Types (validatorId signature : option json).

(** X1. A vote on an identifier Redis does not hold (never created, or
    expired) is answered 404 "Not Found" and changes nothing.  In particular
    a proposal that received no vote during the 86400 seconds after its
    creation can no longer be voted on, whoever signs. *)
Theorem vote_on_missing_proposal cfg :
  (∀ e w id validatorId signature,
     stored (now e) w id = None →
     run e (approve cfg id validatorId signature) w
     = (Some (res_json 404 (error_body "Not Found")), w))
  ∧ (∀ e0 e1 t uuid username act pl w validatorId signature,
       now e0 + 86400 ≤ now e1 →
       let created := (run e0 (create t uuid username act pl) w).2 in
       run e1 (approve cfg uuid validatorId signature) created
       = (Some (res_json 404 (error_body "Not Found")), created)).
Proof.
  split; [intros; by apply approve_missing|].
  intros e0 e1 t uuid username act pl w v s Hlate created. subst created.
  apply approve_missing. rewrite create_run; cbn.
  unfold stored, redis_get; cbn. rewrite lookup_insert_eq; cbn.
  by rewrite bool_decide_eq_true_2 by lia.
Qed.

(** X2. Whatever the request carries, the vote handler touches no Redis
    list and no key but the one of the proposal voted on; unless it answers
    200 it leaves Redis exactly as it was.  It calls the issuer agent at
    most once, and only for a vote that passes the duplicate check and the
    signature check and brings a pending proposal whose action is the
    string REVOKE_CREDENTIAL to the threshold. *)
Theorem vote_frame cfg e w id validatorId signature :
  let result := run e (approve cfg id validatorId signature) w in
  lists result.2 = lists w
  ∧ (∀ key, key ≠ proposal_key id → strings result.2 !! key = strings w !! key)
  ∧ ((∀ body, result.1 ≠ Some (res_json 200 body)) → strings result.2 = strings w)
  ∧ (outbox result.2 = outbox w
     ∨ ∃ p, stored (now e) w id = Some p
            ∧ status p = "PENDING"
            ∧ includes (approvals p) validatorId = false
            ∧ signature_ok cfg id validatorId signature p
            ∧ (THRESHOLD ≤ length (approvals p) + 1)%nat
            ∧ action p = Some (JStr "REVOKE_CREDENTIAL")
            ∧ outbox result.2 = outbox w ++ [executor_call cfg p]).
Proof.
  intros result. subst result.
  destruct (run e (approve cfg id validatorId signature) w) as [r w'] eqn:Hrun.
  cbn [fst snd].
  assert (∀ p, calls_executor validatorId p = true →
               (THRESHOLD ≤ length (approvals p) + 1)%nat
               ∧ action p = Some (JStr "REVOKE_CREDENTIAL")) as Hcalls.
  { intros p [Hthr Hact]%andb_prop.
    apply bool_decide_eq_true_1 in Hthr. apply is_revocation_true in Hact.
    rewrite length_app in Hthr. cbn in Hthr. done. }
  apply approve_cases in Hrun
    as [(-> & _)
       |[(p & Hget & Hpend & Hnew & Hsig & Hc & _ & -> & ->)
        |(p & Hget & Hpend & Hnew & Hsig & -> & ->)]].
  - split_and!; [done|done|done|by left].
  - apply Hcalls in Hc as [Hthr Hact].
    split_and!; [done|done|done|]. right. exists p. split_and!; done.
  - split_and!.
    + by destruct (calls_executor validatorId p).
    + intros key Hkey. cbn. rewrite lookup_insert_ne by done.
      by destruct (calls_executor validatorId p).
    + intros Hno. by destruct (Hno (JObj [("status", JStr (status (voted validatorId p)))])).
    + destruct (calls_executor validatorId p) eqn:Hc; [|by left].
      apply Hcalls in Hc as [Hthr Hact].
      right. exists p. split_and!; done.
Qed.

Lemma elem_of_names s l : s ∈ names l ↔ JStr s ∈ l.
Proof.
  unfold names. rewrite list_elem_of_omap. split.
  - intros (a & Ha & Hs). destruct a; try done. by injection Hs as ->.
  - intros Hin. by exists (JStr s).
Qed.

Lemma names_pushed l validatorId :
  includes l validatorId = false →
  NoDup (names l) → NoDup (names (l ++ [pushed validatorId])).
Proof.
  intros Hnew Hnodup. unfold names. rewrite omap_app. fold (names l).
  destruct validatorId as [[| | |s| |]|]; cbn; rewrite ?app_nil_r; try done.
  apply NoDup_app. split_and!; [done| |apply NoDup_singleton].
  intros x Hx ->%list_elem_of_singleton.
  apply elem_of_names, includes_name in Hx. by rewrite Hx in Hnew.
Qed.

Lemma sound_voted cfg id validatorId signature p :
  sound_proposal cfg p →
  status p = "PENDING" →
  includes (approvals p) validatorId = false →
  signature_ok cfg id validatorId signature p →
  sound_proposal cfg (voted validatorId p).
Proof.
  intros (Hnodup & Hknown & Hstatus) Hpend Hnew (pem & _ & _ & Hpem & _).
  assert (length (approvals p) < THRESHOLD)%nat as Hlen.
  { destruct Hstatus as [[_ ?]|[Hex _]]; [done|]. by rewrite Hpend in Hex. }
  unfold sound_proposal. rewrite approvals_voted. split_and!.
  - by apply names_pushed.
  - intros a [Ha| ->%list_elem_of_singleton]%elem_of_app; [by apply Hknown|].
    exists validatorId. split; [done|by eexists].
  - rewrite length_app; cbn [length]. unfold voted; cbn.
    rewrite length_app; cbn [length]. case_bool_decide; cbn; [right|left]; split;
      first [done|lia].
Qed.

Lemma handle_sound cfg e r w :
  sound cfg w → sound cfg (run e (handle cfg r) w).2.
Proof.
  intros Hw. destruct r as [t uuid username act pl|id v s]; unfold handle.
  - rewrite create_run. intros key p ex; cbn.
    rewrite lookup_insert. case_decide as Hk; [|apply Hw].
    intros [= <- <-]. split_and!; cbn.
    + constructor.
    + by intros v ?%elem_of_nil.
    + left. unfold THRESHOLD. split; [done|lia].
  - destruct (run e (approve cfg id v s) w) as [r w'] eqn:Hrun; cbn.
    apply approve_cases in Hrun
      as [(-> & _)|[(p0 & _ & _ & _ & _ & _ & _ & _ & ->)
                   |(p0 & Hget & Hpend & Hnew & Hsig & _ & ->)]];
      [done|done|].
    apply redis_get_Some in Hget as (ex0 & Hw0 & _).
    intros key p ex; cbn. rewrite lookup_insert. case_decide as Hk.
    + intros [= <- <-]. eapply sound_voted; [by eapply Hw|done..].
    + destruct (calls_executor v p0); apply Hw.
Qed.

(** X3. Served from an empty Redis, or from any sound one, the service
    keeps every stored proposal sound: it is PENDING with fewer than 3
    approvals or EXECUTED with at least 3; every approval is what was stored
    for a [validatorId] that led to a configured validator; and no name (an
    approval that is a string) is listed twice.  Approvals that are not
    strings may repeat, so that the three approvals of an EXECUTED proposal
    need not come from three validators. *)
Theorem store_stays_sound cfg :
  sound cfg (World ∅ ∅ [])
  ∧ (∀ reqs w, sound cfg w → sound cfg (serve cfg reqs w).2)
  ∧ (∀ reqs key p ex,
       strings (serve cfg reqs (World ∅ ∅ [])).2 !! key = Some (p, ex) →
       (status p = "EXECUTED" → (3 ≤ length (approvals p))%nat)
       ∧ NoDup (names (approvals p))
       ∧ (∀ v, JStr v ∈ approvals p → is_Some (VALIDATORS cfg !! v))).
Proof.
  assert (sound cfg (World ∅ ∅ [])) as Hempty by (intros key p ex; by cbn).
  assert (∀ reqs w, sound cfg w → sound cfg (serve cfg reqs w).2) as Hkeep.
  { intros reqs. induction reqs as [|[e r] reqs IH]; intros w Hw; [done|].
    rewrite serve_cons; cbn [snd]. apply IH. by apply handle_sound. }
  split_and!; [done|done|].
  intros reqs key p ex Hp.
  destruct (Hkeep reqs _ Hempty key p ex Hp) as (Hnodup & Hknown & Hstatus).
  split_and!; [|done|].
  - intros Hst. destruct Hstatus as [[Hpend _]|[_ ?]]; [|done].
    by rewrite Hst in Hpend.
  - intros v (validatorId & Hv & Hcfg)%Hknown.
    destruct validatorId as [[| | |s| |]|]; cbn in Hv; try discriminate.
    by injection Hv as ->.
Qed.

(** The signed text does not mention the approvals or the status: a
    signature stays valid while votes accumulate. *)
Lemma message_set_approvals id l p : message id (set_approvals l p) = message id p.
Proof. reflexivity. Qed.

(** X4. The life of a proposal.  Let a proposal be created and then
    receive, one after the other, the validly signed votes of three
    different configured validators, each under its name, the first of them
    within the 86400 seconds of the proposal's time to live (the later ones
    may come at any time), the issuer agent answering when it is called.
    Then the answers are 201, then 200 PENDING twice, then 200 EXECUTED;
    afterwards Redis holds the proposal for good, EXECUTED with the three
    validators in the order of their votes; and the issuer agent was called
    once if the action is the string REVOKE_CREDENTIAL and not at all
    otherwise. *)
Theorem proposal_lifecycle cfg e0 e1 e2 e3 t uuid username act pl
    (v1 v2 v3 : string) s1 s2 s3 w
    (Hintime : now e1 < now e0 + 86400)
    (H12 : v1 ≠ v2) (H13 : v1 ≠ v3) (H23 : v2 ≠ v3)
    (Hs1 : signature_ok cfg uuid (Some (JStr v1)) s1
             (Proposal uuid act pl username [] "PENDING" (Date_toISOString t)))
    (Hs2 : signature_ok cfg uuid (Some (JStr v2)) s2
             (Proposal uuid act pl username [] "PENDING" (Date_toISOString t)))
    (Hs3 : signature_ok cfg uuid (Some (JStr v3)) s3
             (Proposal uuid act pl username [] "PENDING" (Date_toISOString t)))
    (Hup : act = Some (JStr "REVOKE_CREDENTIAL") →
           is_Some (net e3 (revoke_url cfg)
                      (revoke_body
                         (Proposal uuid act pl username [] "PENDING"
                            (Date_toISOString t))))) :
  let p0 := Proposal uuid act pl username [] "PENDING" (Date_toISOString t) in
  let result :=
    serve cfg [(e0, PostProposals t uuid username act pl);
               (e1, PostApprove uuid (Some (JStr v1)) s1);
               (e2, PostApprove uuid (Some (JStr v2)) s2);
               (e3, PostApprove uuid (Some (JStr v3)) s3)] w in
  result.1
  = [Some (res_json 201 (JObj [("proposalId", JStr uuid); ("status", JStr "PENDING")]));
     Some (res_json 200 (JObj [("status", JStr "PENDING")]));
     Some (res_json 200 (JObj [("status", JStr "PENDING")]));
     Some (res_json 200 (JObj [("status", JStr "EXECUTED")]))]
  ∧ (∀ t', stored t' result.2 uuid
           = Some (Proposal uuid act pl username [JStr v1; JStr v2; JStr v3]
                     "EXECUTED" (Date_toISOString t)))
  ∧ (act = Some (JStr "REVOKE_CREDENTIAL") →
     outbox result.2 = outbox w ++ [executor_call cfg p0])
  ∧ (act ≠ Some (JStr "REVOKE_CREDENTIAL") → outbox result.2 = outbox w).
Proof.
  intros p0 result. subst result.
  pose (p1 := Proposal uuid act pl username [JStr v1] "PENDING" (Date_toISOString t)).
  pose (p2 := Proposal uuid act pl username [JStr v1; JStr v2] "PENDING"
                (Date_toISOString t)).
  pose (p3 := Proposal uuid act pl username [JStr v1; JStr v2; JStr v3] "EXECUTED"
                (Date_toISOString t)).
  pose (w1 := redis_set (now e0) (proposal_key uuid) p0 (Some 86400) w).
  pose (w2 := redis_set (now e1) (proposal_key uuid) p1 None w1).
  pose (w3 := redis_set (now e2) (proposal_key uuid) p2 None w2).
  pose (w4 := redis_set (now e3) (proposal_key uuid) p3 None
                (if is_revocation p0
                 then send (revoke_url cfg) (revoke_body p0) w3 else w3)).
  assert (run e0 (create t uuid username act pl) w
          = (Some (res_json 201
                     (JObj [("proposalId", JStr uuid); ("status", JStr "PENDING")])),
             w1)) as Hrun0 by apply create_run.
  assert (run e1 (approve cfg uuid (Some (JStr v1)) s1) w1
          = (Some (res_json 200 (JObj [("status", JStr "PENDING")])), w2)) as Hrun1.
  { rewrite (approve_valid cfg e1 w1 uuid (Some (JStr v1)) s1 p0); [done| |done|done|done].
    apply redis_get_set. cbn. apply bool_decide_eq_false_2. lia. }
  assert (run e2 (approve cfg uuid (Some (JStr v2)) s2) w2
          = (Some (res_json 200 (JObj [("status", JStr "PENDING")])), w3)) as Hrun2.
  { rewrite (approve_valid cfg e2 w2 uuid (Some (JStr v2)) s2 p1); [done| |done| |done].
    - by apply redis_get_set.
    - cbn. rewrite bool_decide_eq_false_2; [done|]. congruence. }
  assert (run e3 (approve cfg uuid (Some (JStr v3)) s3) w3
          = (Some (res_json 200 (JObj [("status", JStr "EXECUTED")])), w4)) as Hrun3.
  { rewrite (approve_valid cfg e3 w3 uuid (Some (JStr v3)) s3 p2); [| |done| |done].
    - unfold calls_executor.
      change (bool_decide (THRESHOLD ≤ length (approvals p2 ++ [pushed (Some (JStr v3))]))%nat)
        with true.
      cbn [andb]. change (is_revocation p2) with (is_revocation p0).
      change (revoke_body p2) with (revoke_body p0).
      change (act = Some (JStr "REVOKE_CREDENTIAL") →
              is_Some (net e3 (revoke_url cfg) (revoke_body p0))) in Hup.
      unfold w4.
      destruct (is_revocation p0) eqn:Hact; [|done].
      apply is_revocation_true in Hact. by destruct (Hup Hact) as [data ->].
    - by apply redis_get_set.
    - cbn. rewrite !bool_decide_eq_false_2; [done|congruence..]. }
  rewrite !serve_cons. unfold handle.
  rewrite Hrun0; cbn [fst snd]. rewrite Hrun1; cbn [fst snd].
  rewrite Hrun2; cbn [fst snd]. rewrite Hrun3; cbn [fst snd].
  split_and!.
  - done.
  - intros t'. unfold stored, w4. by apply redis_get_set.
  - intros Hact. unfold w4.
    by rewrite (proj2 (is_revocation_true p0) Hact).
  - intros Hact. unfold w4.
    by rewrite (proj2 (is_revocation_false p0) Hact).
Qed.

(** X15. A name is counted once.  A vote under a name that is already
    among the approvals of a pending proposal is answered 409 "Voted" and
    changes nothing, whatever its signature; the same holds for any
    [validatorId] that the duplicate check finds.  The check finds a name
    exactly when the approvals list it, and it finds no array and no
    object. *)
Theorem repeated_name_rejected cfg e w id p
    (Hstored : stored (now e) w id = Some p)
    (Hpending : status p = "PENDING") :
  (∀ v signature,
     JStr v ∈ approvals p →
     run e (approve cfg id (Some (JStr v)) signature) w
     = (Some (res_json 409 (error_body "Voted")), w))
  ∧ (∀ validatorId signature,
       includes (approvals p) validatorId = true →
       run e (approve cfg id validatorId signature) w
       = (Some (res_json 409 (error_body "Voted")), w))
  ∧ (∀ v, includes (approvals p) (Some (JStr v)) = true ↔ JStr v ∈ approvals p)
  ∧ (∀ xs, includes (approvals p) (Some (JArr xs)) = false)
  ∧ (∀ fs, includes (approvals p) (Some (JObj fs)) = false).
Proof.
  split_and!.
  - intros v s Hin. apply approve_duplicate with p; [done..|].
    by apply includes_name.
  - intros v s Hin. by apply approve_duplicate with p.
  - intros v. apply includes_name.
  - intros xs. by apply includes_object.
  - intros fs. by apply includes_object.
Qed.

End VoteFrame.

(** ** The gateway: sessions from request to verified event *)

Section Sessions.
Context `{Host} `{ExpressValidator}.
Import Gateway.

Implicit Types (w : Gateway.world) (cfg : config).

(** The webhook handler once the caller is let through. *)
Lemma present_proof_answers cfg e t body w :
  let result := run e (present_proof cfg t body) w in
  result.1 = Some (res_send 200 "")
  ∧ (is_string "verified" (Json.field "state" body) = false
     ∨ success_flag (Json.field "verified" body) = false
     ∨ session_at (now e) w (Json.field "presentation_exchange_id" body) = None →
     result.2 = w).
Proof.
  intros result. subst result. unfold present_proof, session_at; cbn.
  destruct (is_string "verified" _) eqn:Hstate; cbn; [|done].
  destruct (redis_get _ _ _) as [s|] eqn:Hget; cbn; [|done].
  destruct (success_flag _) eqn:Hflag; cbn; [|done].
  split; [done|]. by intros [|[|]].
Qed.


(** A request whose [proof_request_data] is not an object fails the
    validation: the answer is 400 with the reports, and nothing else
    happens. *)
Lemma verify_invalid cfg e t user_id proof_request_data w :
  isObject proof_request_data = false →
  validation_errors proof_request_data ≠ []
  ∧ run e (verify cfg t user_id proof_request_data) w
    = (Some (res_json 400
               (JObj [("errors", JArr (validation_errors proof_request_data))])),
       w).
Proof.
  intros Hno. unfold verify, validation_errors. rewrite Hno.
  by destruct (exists_ proof_request_data).
Qed.

Lemma validation_passes fs : validation_errors (Some (JObj fs)) = [].
Proof. reflexivity. Qed.

Lemma verify_answered cfg e t user_id fs data w :
  net e (agent_url cfg) (agent_request (Some (JObj fs))) = Some data →
  data ≠ JNull →
  let x := Json.field "presentation_exchange_id" data in
  let result := run e (verify cfg t user_id (Some (JObj fs))) w in
  result.1
  = Some (res_json 200
            (JObj (Js.prop "presentation_exchange_id" x
                   ++ Js.prop "request_url"
                        (Json.field "presentation_request" data))))
  ∧ (∀ t', t' < now e + 3600 →
       session_at t' result.2 x
       = Some (Session (Date_toISOString t) "REQUEST_SENT" user_id))
  ∧ (∀ t', now e + 3600 ≤ t' → session_at t' result.2 x = None).
Proof.
  intros Hnet Hdata x result. subst x result.
  unfold verify. rewrite validation_passes. cbn. rewrite Hnet; cbn.
  assert (∀ k : Gateway.io response,
            match data with JNull => Throw | _ => k end = k) as ->
    by (intros k; by destruct data).
  cbn. split_and!; [done| |].
  - intros t' Ht. unfold session_at. apply redis_get_set. cbn.
    apply bool_decide_eq_false_2. lia.
  - intros t' Ht. unfold session_at, redis_get; cbn.
    rewrite lookup_insert_eq; cbn. by rewrite bool_decide_eq_true_2 by lia.
Qed.



End Sessions.

(** ** The gateway and the log together *)

Section GatewayToLog.
Context `{Host}.

(** X8. Every append the gateway requests passes the payload check of the
    log: sent to the log, the request of [handleSuccessfulVerification] is
    answered 201, the entry appended holds that request unchanged, and the
    receipt carries the new length of the list. *)
Theorem log_accepts_gateway_requests e t logId t0 exchangeId proofData
    (w : TransparencyLog.world) :
  let request := Gateway.log_request t0 exchangeId proofData in
  let result := run e (TransparencyLog.append t logId (Some request)) w in
  TransparencyLog.logIndex result.1
  = Some (Z.of_nat (length (TransparencyLog.entries w)) + 1)
  ∧ TransparencyLog.entries result.2
    = TransparencyLog.entries w
      ++ [TransparencyLog.LogEntry logId (Date_toISOString t) request].
Proof.
  intros request result. subst result.
  change (TransparencyLog.append t logId (Some request))
    with (TransparencyLog.submit (TransparencyLog.Submission t logId (Some request))).
  rewrite submit_run.
  assert (TransparencyLog.entry_of (TransparencyLog.Submission t logId (Some request))
          = Some (TransparencyLog.LogEntry logId (Date_toISOString t) request))
    as -> by reflexivity.
  cbn [fst snd]. rewrite logIndex_receipt, entries_rpush.
  split; [|done]. f_equal. lia.
Qed.

End GatewayToLog.

(** ** Appends whose requests overlap *)

Section OverlappingAppends.
Context `{Host}.
Import TransparencyLog Overlap.

Implicit Types (w : TransparencyLog.world) (q : submission).

(** A request is either turned down before it reaches Redis, or it is one
    RPUSH away from its receipt. *)
Lemma submit_shape q :
  (entry_of q = None
   ∧ submit q = Ret (res_json 400 (error_body "Invalid payload structure")))
  ∨ (∃ x, entry_of q = Some x
          ∧ submit q = RPush log_key x (λ k, Ret (receipt_for (sub_logId q) k))).
Proof.
  unfold submit, append, entry_of, well_formed.
  destruct q as [t u pl]; cbn [sub_payload sub_time sub_logId].
  destruct (Js.truthy pl) eqn:Ht; cbn -[Js.truthy]; [|by left].
  destruct (Js.truthy (pl ≫= Json.field "spec")) eqn:Hs; cbn -[Js.truthy];
    [|by left].
  destruct pl as [b|]; [|done]. right. eexists. split; [done|]. done.
Qed.

Lemma receipt_submit q : receipt (submit q) = None.
Proof.
  destruct (submit_shape q) as [[_ ->]|(x & _ & ->)]; reflexivity.
Qed.

Lemma receipt_receipt_for u k : receipt (Ret (receipt_for u k)) = Some (Z.of_nat k).
Proof. reflexivity. Qed.

Lemma indices_S n m : indices n (S m) = indices n m ++ [Z.of_nat (n + S m)].
Proof. unfold indices. rewrite seq_S, fmap_app. done. Qed.

Lemma indices_NoDup n m : NoDup (indices n m).
Proof.
  unfold indices. apply NoDup_fmap_2; [|apply NoDup_seq].
  intros a b Hab. lia.
Qed.

(** Replacing an element that has no receipt by one that has. *)
Lemma omap_insert_new {A B} (f : A → option B) (l : list A) i x y b :
  l !! i = Some x → f x = None → f y = Some b →
  omap f (<[i:=y]> l) ≡ₚ omap f l ++ [b].
Proof.
  intros Hi Hx Hy.
  rewrite <- (take_drop_middle l i x Hi) at 2.
  rewrite insert_take_drop by (by eapply lookup_lt_Some).
  rewrite !omap_app. cbn. rewrite Hx, Hy.
  rewrite <- app_assoc. apply Permutation_app_head.
  by rewrite <- Permutation_cons_append.
Qed.

Lemma omap_NoDup_lookup {A B} (f : A → option B) (l : list A) i j x y b :
  NoDup (omap f l) →
  l !! i = Some x → l !! j = Some y → f x = Some b → f y = Some b → i = j.
Proof.
  revert i j. induction l as [|a l IH]; intros i j Hnd Hi Hj Hx Hy; [done|].
  cbn in Hnd.
  assert (∀ k z, l !! k = Some z → f z = Some b → b ∈ omap f l) as Hin.
  { intros k z Hk Hz. apply list_elem_of_omap. exists z. split; [|done].
    by eapply list_elem_of_lookup_2. }
  destruct i as [|i], j as [|j]; cbn in Hi, Hj; simplify_eq; [done| | |].
  - rewrite Hx in Hnd. apply NoDup_cons in Hnd as [Hnot _].
    by destruct Hnot; eapply Hin.
  - rewrite Hy in Hnd. apply NoDup_cons in Hnd as [Hnot _].
    by destruct Hnot; eapply Hin.
  - f_equal. eapply IH; [|done..].
    destruct (f a); [by apply NoDup_cons in Hnd as [_ ?]|done].
Qed.

(** What one turn of the event loop preserves. *)
Lemma interleave_log e sched qs :
  ∀ ps w n m,
    Forall2 (stands (entries w)) qs ps →
    length (entries w) = (n + m)%nat →
    omap receipt ps ≡ₚ indices n m →
    ∃ m',
      Forall2 (stands (entries (interleave e sched ps w).2)) qs
        (interleave e sched ps w).1
      ∧ length (entries (interleave e sched ps w).2) = (n + m')%nat
      ∧ omap receipt (interleave e sched ps w).1 ≡ₚ indices n m'
      ∧ ∃ new, entries (interleave e sched ps w).2 = entries w ++ new.
Proof.
  induction sched as [|i sched IH]; intros ps w n m Hst Hlen Hperm.
  { exists m. split_and!; [done..|]. exists []. by rewrite app_nil_r. }
  cbn [interleave]. destruct (ps !! i) as [p|] eqn:Hp; [|by apply (IH _ _ n m)].
  destruct (Forall2_lookup_r _ _ _ _ _ Hst Hp) as (q & Hq & Hqp).
  destruct Hqp as [->|(x & k & Hx & -> & Hk)].
  - destruct (submit_shape q) as [[Hnone Hsub]|(x & Hx & Hsub)]; rewrite Hsub.
    + cbn [step].
      replace (<[i:=Ret (res_json 400 (error_body "Invalid payload structure"))]> ps)
        with ps; [by apply (IH _ _ n m)|].
      symmetry. apply list_insert_id. by rewrite Hp, Hsub.
    + cbn [step].
      set (w' := redis_rpush log_key x w).
      assert (entries w' = entries w ++ [x]) as Hw' by apply entries_rpush.
      fold (entries w'). rewrite Hw', length_app, Hlen. cbn [length].
      destruct (IH (<[i:=Ret (receipt_for (sub_logId q) (n + m + 1))]> ps) w' n (S m))
        as (m' & IH1 & IH2 & IH3 & new & IH4).
      * rewrite <- (list_insert_id qs i q Hq).
        apply Forall2_insert.
        -- eapply Forall2_impl; [done|]. intros q0 p0 [->|(x0 & k0 & ? & -> & Hk0)].
           ++ by left.
           ++ right. exists x0, k0. split_and!; [done..|].
              rewrite Hw'. by apply lookup_app_l_Some.
        -- right. exists x, (n + m)%nat. split_and!; [done| |].
           ++ do 2 f_equal. lia.
           ++ rewrite Hw'. rewrite lookup_app_r by lia.
              by rewrite Hlen, Nat.sub_diag.
      * rewrite Hw', length_app, Hlen. cbn. lia.
      * rewrite indices_S, <- Hperm.
        replace (n + S m)%nat with (n + m + 1)%nat by lia.
        eapply omap_insert_new; [done|apply receipt_submit|].
        apply receipt_receipt_for.
      * exists m'. split_and!; [done..|].
        exists ([x] ++ new). by rewrite IH4, Hw', <- app_assoc.
  - cbn [step]. rewrite list_insert_id by done. by apply (IH _ _ n m).
Qed.

(** X9. Appends in flight together.  Let any number of submissions be in
    flight and let the event loop serve them in any order, turn by turn,
    for as long or as short as it likes.  Then the list only grows at its
    tail; the indices on the receipts handed out so far are exactly the
    positions filled since the start, each handed out once, so no two
    requests hold the same index; and the index on a receipt is the
    position, counted from 1, of the entry of the very request that holds
    it. *)
Theorem overlapping_appends_get_distinct_indices e sched qs w :
  let result := interleave e sched (submit <$> qs) w in
  let n := length (entries w) in
  (∃ new, entries result.2 = entries w ++ new)
  ∧ omap receipt result.1 ≡ₚ indices n (length (entries result.2) - n)
  ∧ (∀ i j p p' a,
       result.1 !! i = Some p → result.1 !! j = Some p' →
       receipt p = Some a → receipt p' = Some a → i = j)
  ∧ (∀ i q p a,
       qs !! i = Some q → result.1 !! i = Some p → receipt p = Some a →
       ∃ x, entry_of q = Some x
            ∧ (0 < a)%Z
            ∧ entries result.2 !! (Z.to_nat a - 1)%nat = Some x).
Proof.
  intros result n. subst result n.
  destruct (interleave_log e sched qs (submit <$> qs) w (length (entries w)) 0)
    as (m & Hst & Hlen & Hperm & new & Hnew).
  - apply Forall2_fmap_r, Forall_Forall2_diag, Forall_forall. intros q _. by left.
  - lia.
  - cbn. clear. induction qs as [|q qs IH]; [done|]. cbn.
    change (logIndex (finished (submit q))) with (receipt (submit q)).
    by rewrite receipt_submit.
  - split_and!.
    + by exists new.
    + rewrite Hlen. by replace (length (entries w) + m - length (entries w))%nat
        with m by lia.
    + intros i j p p' a Hi Hj Hp Hp'.
      eapply (omap_NoDup_lookup receipt); [|done..].
      rewrite Hperm. apply indices_NoDup.
    + intros i q p a Hq Hp Ha.
      destruct (Forall2_lookup_lr _ _ _ _ _ _ Hst Hq Hp)
        as [->|(x & k & Hx & -> & Hk)].
      * by rewrite receipt_submit in Ha.
      * rewrite receipt_receipt_for in Ha. injection Ha as <-.
        exists x. split_and!; [done|lia|].
        by replace (Z.to_nat (Z.of_nat (S k)) - 1)%nat with k by lia.
Qed.

End OverlappingAppends.

(** ** Who is let through *)

Section Gates.
Context `{Tokens} {V L : Type}.
Import Access.

#[local] Arguments String.append : simpl nomatch.

(** A token without a space is what [split(' ')[1]] reads back from the
    header made with it, whatever follows a further space. *)
Lemma split_free sep s : free_of sep s = true → split sep s = [s].
Proof.
  induction s as [|c s IH]; cbn; [done|].
  intros [Hc Hs]%andb_prop. apply negb_true_iff, bool_decide_eq_false_1 in Hc.
  destruct (decide (c = sep)); [done|]. by rewrite IH.
Qed.

Lemma split_app sep a b :
  free_of sep a = true → split sep (a +:+ String sep b) = a :: split sep b.
Proof.
  induction a as [|c a IH]; cbn.
  - intros _. by destruct (decide (sep = sep)).
  - intros [Hc Ha]%andb_prop. apply negb_true_iff, bool_decide_eq_false_1 in Hc.
    destruct (decide (c = sep)); [done|]. by rewrite IH.
Qed.

Lemma bearer_token secret token :
  free_of " " token = true →
  bearer secret (Some ("Bearer " +:+ token)) = jwt_verify token secret.
Proof.
  intros Hfree. unfold bearer.
  change ("Bearer " +:+ token) with ("Bearer" +:+ String " " token).
  rewrite split_app by done. rewrite split_free by done. done.
Qed.

Lemma bearer_token_rest secret token rest :
  free_of " " token = true →
  bearer secret (Some ("Bearer " +:+ token +:+ String " " rest))
  = jwt_verify token secret.
Proof.
  intros Hfree. unfold bearer.
  change ("Bearer " +:+ token +:+ String " " rest)
    with ("Bearer" +:+ String " " (token +:+ String " " rest)).
  rewrite split_app by done. rewrite split_app by done. done.
Qed.

Lemma bearer_needs_scheme secret h payload :
  bearer secret h = Some payload →
  ∃ header token,
    h = Some header ∧ starts_with "Bearer " header = true
    ∧ split " " header !! 1%nat = Some token
    ∧ jwt_verify token secret = Some payload.
Proof.
  unfold bearer. destruct h as [header|]; [|done].
  destruct (bool_decide (header ≠ "")); cbn [andb]; [|done].
  destruct (starts_with "Bearer " header) eqn:Hstart; [|done].
  destruct (split " " header !! 1%nat) as [token|] eqn:Htoken; [|done].
  intros Hverify. by exists header, token.
Qed.

(** X10. [requireAdmin].  Whatever the rest of the route is, it runs only
    for a request whose Authorization header starts with "Bearer " and
    whose token verifies under the secret to a payload with role "admin",
    and then it runs with that payload as [req.user].  Every other request
    is answered 403 by the middleware itself, which touches nothing.  The
    header "Bearer <token>" made from a token without spaces is read back
    as that token, also when more text follows after a space. *)
Theorem only_admins_pass secret authorization
    (next : json → Effects.io V L response) :
  (requireAdmin secret authorization next = Ret forbidden_admin
   ∨ ∃ header token payload,
       authorization = Some header
       ∧ starts_with "Bearer " header = true
       ∧ split " " header !! 1%nat = Some token
       ∧ jwt_verify token secret = Some payload
       ∧ Json.field "role" payload = Some (JStr "admin")
       ∧ requireAdmin secret authorization next = next payload)
  ∧ (∀ e w, run e (Ret forbidden_admin : Effects.io V L response) w
            = (Some (res_json 403 (error_body "Forbidden: Admins Only")), w))
  ∧ (∀ token rest,
       free_of " " token = true →
       requireAdmin secret (Some ("Bearer " +:+ token)) next
       = requireAdmin secret (Some ("Bearer " +:+ token +:+ String " " rest)) next
       ∧ requireAdmin secret (Some ("Bearer " +:+ token)) next
         = match jwt_verify token secret with
           | Some payload =>
               if Gateway.is_string "admin" (Json.field "role" payload)
               then next payload else Ret forbidden_admin
           | None => Ret forbidden_admin
           end).
Proof.
  split_and!.
  - unfold requireAdmin.
    destruct (bearer secret authorization) as [payload|] eqn:Hbearer; [|by left].
    destruct (Gateway.is_string "admin" _) eqn:Hrole; [|by left].
    right. apply bearer_needs_scheme in Hbearer as (header & token & -> & ? & ? & ?).
    exists header, token, payload. split_and!; [done..| |done].
    unfold Gateway.is_string in Hrole.
    destruct (Json.field "role" payload) as [[| | |s| |]|]; try done.
    by apply bool_decide_eq_true_1 in Hrole as ->.
  - done.
  - intros token rest Hfree. unfold requireAdmin.
    by rewrite bearer_token, bearer_token_rest.
Qed.

(** X11. The guards of [POST /verify].  A request with a listed API key
    reaches the handler as the user "system", whatever its Authorization
    header says.  Without such a key the token decides: no valid bearer
    token, 401; a valid one whose role is neither "verifier" nor
    "verifier_system", 403; otherwise the handler runs with the payload as
    [req.user].  So the handler never runs for a user without one of the two
    roles. *)
Theorem verify_guards_let_verifiers_pass keys secret x_api_key authorization
    (next : json → Effects.io V L response) :
  (∀ apiKey, x_api_key = Some apiKey → apiKey ≠ "" → apiKey ∈ keys →
     verify_guards keys secret x_api_key authorization next = next system_user)
  ∧ ((x_api_key = None ∨ ∃ apiKey, x_api_key = Some apiKey ∧ apiKey ∉ keys) →
     verify_guards keys secret x_api_key authorization next
     = match bearer secret authorization with
       | Some payload =>
           if Gateway.is_string "verifier" (Json.field "role" payload)
              || Gateway.is_string "verifier_system" (Json.field "role" payload)
           then next payload else Ret forbidden
       | None => Ret unauthorized
       end)
  ∧ (verify_guards keys secret x_api_key authorization next = Ret unauthorized
     ∨ verify_guards keys secret x_api_key authorization next = Ret forbidden
     ∨ ∃ user,
         verify_guards keys secret x_api_key authorization next = next user
         ∧ (Json.field "role" user = Some (JStr "verifier")
            ∨ Json.field "role" user = Some (JStr "verifier_system"))).
Proof.
  assert (∀ user,
            require_verifier user (next user) = Ret forbidden
            ∨ (require_verifier user (next user) = next user
               ∧ (Json.field "role" user = Some (JStr "verifier")
                  ∨ Json.field "role" user = Some (JStr "verifier_system"))))
    as Hrole.
  { intros user. unfold require_verifier, Gateway.is_string.
    destruct (Json.field "role" user) as [[| | |s| |]|] eqn:Hr;
      rewrite ?orb_true_r; try (by left).
    destruct (Js.truthy (Some user)); cbn; [|by left].
    destruct (decide (s = "verifier")) as [->|H1].
    - right. by split; [|left].
    - rewrite (bool_decide_eq_false_2 (s = "verifier")) by done.
      destruct (decide (s = "verifier_system")) as [->|H2].
      + right. by split; [|right].
      + rewrite (bool_decide_eq_false_2 (s = "verifier_system")) by done.
        by left. }
  split_and!.
  - intros apiKey -> Hne Hin. unfold verify_guards, authMiddleware.
    rewrite !bool_decide_eq_true_2 by done. done.
  - intros Hkey. unfold verify_guards, authMiddleware.
    assert (match x_api_key with
            | Some apiKey => bool_decide (apiKey ≠ "") && bool_decide (apiKey ∈ keys)
            | None => false
            end = false) as ->.
    { destruct Hkey as [->|(apiKey & -> & Hnot)]; [done|].
      rewrite (bool_decide_eq_false_2 (apiKey ∈ keys)) by done.
      apply andb_false_r. }
    destruct (bearer secret authorization) as [payload|]; [|done].
    unfold require_verifier, Gateway.is_string.
    destruct payload as [|b|n|s|xs|fs]; try done.
    + by destruct b.
    + cbn. by case_bool_decide.
    + cbn. by case_bool_decide.
    + cbn [Js.truthy negb orb].
      by destruct (Json.field "role" (JObj fs)) as [[| | |s| |]|];
        repeat case_bool_decide.
  - unfold verify_guards, authMiddleware.
    destruct (match x_api_key with Some _ => _ | None => _ end).
    + right; right. exists system_user. split; [done|by right].
    + destruct (bearer secret authorization) as [payload|]; [|by left].
      destruct (Hrole payload) as [->|[-> Hok]]; [by right; left|].
      right; right. by exists payload.
Qed.

End Gates.

(** ** The validator keys *)

Section ValidatorKeys.
Import Keys.

#[local] Arguments String.append : simpl nomatch.

Lemma list_ascii_app (a b : string) :
  String.list_ascii_of_string (a +:+ b)
  = String.list_ascii_of_string a ++ String.list_ascii_of_string b.
Proof. induction a as [|c a IH]; cbn; [done|by f_equal]. Qed.

Lemma string_of_list_ascii_app (k l : list ascii) :
  String.string_of_list_ascii (k ++ l)
  = String.string_of_list_ascii k +:+ String.string_of_list_ascii l.
Proof. induction k as [|c k IH]; cbn; [done|by f_equal]. Qed.

Lemma list_ascii_length (s : string) :
  length (String.list_ascii_of_string s) = String.length s.
Proof. induction s as [|c s IH]; cbn; [done|by f_equal]. Qed.

Lemma ends_with_app name ext : ends_with ext (name +:+ ext) = true.
Proof.
  unfold ends_with. apply bool_decide_eq_true_2. rewrite list_ascii_app.
  by apply suffix_app_r.
Qed.

Lemma basename_app name ext : basename (name +:+ ext) ext = name.
Proof.
  unfold basename. rewrite ends_with_app.
  rewrite <- !list_ascii_length, list_ascii_app, length_app.
  replace (length (String.list_ascii_of_string name)
           + length (String.list_ascii_of_string ext)
           - length (String.list_ascii_of_string ext))%nat
    with (length (String.list_ascii_of_string name)) by lia.
  rewrite take_app_length. apply String.string_of_list_ascii_of_string.
Qed.

Lemma ends_with_basename file ext :
  ends_with ext file = true → file = basename file ext +:+ ext.
Proof.
  intros Hends. unfold basename. rewrite Hends.
  apply bool_decide_eq_true_1 in Hends as [k Hk].
  rewrite <- !list_ascii_length, Hk, length_app.
  replace (length k + length (String.list_ascii_of_string ext)
           - length (String.list_ascii_of_string ext))%nat
    with (length k) by lia.
  rewrite take_app_length.
  rewrite <- (String.string_of_list_ascii_of_string file) at 1.
  rewrite Hk, string_of_list_ascii_app.
  by rewrite String.string_of_list_ascii_of_string.
Qed.

Lemma load_lookup files :
  NoDup files.*1 →
  ∀ validators name pem,
    foldl add_key validators files !! name = Some pem
    ↔ (name +:+ ".pub", pem) ∈ files
      ∨ (validators !! name = Some pem ∧ name +:+ ".pub" ∉ files.*1).
Proof.
  induction files as [|[file content] files IH]; intros Hnd validators name pem.
  { cbn. split; [intros ?; right; split; [done|by intros ?%elem_of_nil]|].
    by intros [?%elem_of_nil|[? _]]. }
  cbn in Hnd. apply NoDup_cons in Hnd as [Hfresh Hnd].
  cbn [foldl]. rewrite (IH Hnd). unfold add_key; cbn [fst snd fmap list_fmap].
  assert ((name +:+ ".pub", pem) ∈ files → name +:+ ".pub" ∈ files.*1) as Hin.
  { intros Hm. apply list_elem_of_fmap. by exists (name +:+ ".pub", pem). }
  destruct (ends_with ".pub" file) eqn:Hends.
  - destruct (decide (basename file ".pub" = name)) as [Hb|Hne].
    + pose proof (ends_with_basename file ".pub" Hends) as Hfile.
      rewrite Hb in Hfile |- *. subst file.
      rewrite lookup_insert_eq. split.
      * intros [Hm|[[= ->] _]]; [by destruct Hfresh; apply Hin|].
        left. apply list_elem_of_here.
      * intros [[[= ->]|Hm]%elem_of_cons|[_ Hnot]].
        -- by right.
        -- by destruct Hfresh; apply Hin.
        -- destruct Hnot. apply list_elem_of_here.
    + assert (name +:+ ".pub" ≠ file) as Hfile.
      { intros <-. by rewrite basename_app in Hne. }
      rewrite lookup_insert_ne by done. split.
      * intros [Hm|[Hv Hnot]]; [left; by apply list_elem_of_further|].
        right. split; [done|]. by intros [?|?]%elem_of_cons.
      * intros [[[= ? _]|Hm]%elem_of_cons|[Hv Hnot]]; [done|by left|].
        right. split; [done|]. intros ?. apply Hnot. by apply list_elem_of_further.
  - assert (name +:+ ".pub" ≠ file) as Hfile.
    { intros <-. by rewrite ends_with_app in Hends. }
    split.
    + intros [Hm|[Hv Hnot]]; [left; by apply list_elem_of_further|].
      right. split; [done|]. by intros [?|?]%elem_of_cons.
    + intros [[[= ? _]|Hm]%elem_of_cons|[Hv Hnot]]; [done|by left|].
      right. split; [done|]. intros ?. apply Hnot. by apply list_elem_of_further.
Qed.

(** X12. The validators loaded at start-up.  From a keys directory (whose
    file names are distinct) the table gets exactly one validator per file
    whose name ends in ".pub": [name] is a validator with key [pem] if and
    only if the directory holds the file [name.pub] with content [pem];
    other files are ignored.  Without a keys directory the table holds the
    built-in "validator_1" and nobody else. *)
Theorem validators_come_from_pub_files :
  (∀ files name pem,
     NoDup files.*1 →
     load_validators (Some files) !! name = Some pem
     ↔ (name +:+ ".pub", pem) ∈ files)
  ∧ (∀ name,
       load_validators None !! name
       = if decide (name = "validator_1") then Some fallback_key else None).
Proof.
  split.
  - intros files name pem Hnd. unfold load_validators.
    rewrite (load_lookup files Hnd). split; [|by left].
    by intros [?|[? _]].
  - intros name. unfold load_validators. case_decide as Hn.
    + subst. apply lookup_singleton_eq.
    + by apply lookup_singleton_ne.
Qed.

End ValidatorKeys.

(** ** What a log entry commits to *)

Section Leaf.
Context `{Host}.
Import Gateway.

(** X13. The request sent to the log determines what was verified.  The
    Base64 codec and the date formatter lose nothing, so two requests of
    [handleSuccessfulVerification] are equal only if they carry the same
    instant, the same exchange identifier and the same hash of the proof
    data. *)
Theorem log_request_determines_evidence t t' x x' proofData proofData'
    (Hbase64 : Inj (=) (=) Buffer_to_base64)
    (Hdate : Inj (=) (=) Date_toISOString)
    (Hsame : log_request t x proofData = log_request t' x' proofData') :
  t = t' ∧ x = x'
  ∧ sha256_hex (Json.stringify proofData) = sha256_hex (Json.stringify proofData').
Proof.
  unfold log_request in Hsame. injection Hsame as Hleaf.
  unfold leafData in Hleaf. apply Hbase64, stringify_inj in Hleaf.
  destruct x as [a|], x' as [a'|]; cbn in Hleaf; try discriminate.
  - injection Hleaf as Ht -> Hhash. by apply Hdate in Ht as ->.
  - injection Hleaf as Ht Hhash. by apply Hdate in Ht as ->.
Qed.

End Leaf.

(** ** The further properties on concrete requests *)

Section Scenarios.
Import Sample Scenario.

(** X4, on a revocation created at instant 0 and approved by v1, v2 and
    v3, the last two long after the 86400 seconds. *)
Lemma proposal_lifecycle_witness :
  let p := pending idA "REVOKE_CREDENTIAL" [] in
  let result :=
    Governance.serve cfg
      [(up 0, Governance.PostProposals 0 idA admin (str "REVOKE_CREDENTIAL") revocation);
       (up 10, Governance.PostApprove idA (str "v1") (signed "PEM1" p));
       (up 100000, Governance.PostApprove idA (str "v2") (signed "PEM2" p));
       (up 200000, Governance.PostApprove idA (str "v3") (signed "PEM3" p))]
      empty_world in
  result.1 !! 3%nat = Some (Some (res_json 200 (JObj [("status", JStr "EXECUTED")])))
  ∧ Governance.stored 999999 result.2 idA
    = Some (executed idA "REVOKE_CREDENTIAL")
  ∧ length (outbox result.2) = 1%nat.
Proof.
  intros p result.
  destruct (proposal_lifecycle cfg (up 0) (up 10) (up 100000) (up 200000)
              0 idA admin (str "REVOKE_CREDENTIAL") revocation "v1" "v2" "v3"
              (signed "PEM1" p) (signed "PEM2" p) (signed "PEM3" p) empty_world)
    as (Hanswers & Hstored & Hout & _).
  - cbn; lia.
  - discriminate.
  - discriminate.
  - discriminate.
  - exists "PEM1", "PEM1", (sign "PEM1" (Governance.message idA p)).
    split_and!; vm_compute; reflexivity.
  - exists "PEM2", "PEM2", (sign "PEM2" (Governance.message idA p)).
    split_and!; vm_compute; reflexivity.
  - exists "PEM3", "PEM3", (sign "PEM3" (Governance.message idA p)).
    split_and!; vm_compute; reflexivity.
  - intros _. vm_compute. eauto.
  - subst result. split_and!.
    + exact (f_equal (λ l, l !! 3%nat) Hanswers).
    + apply Hstored.
    + exact (f_equal length (Hout eq_refl)).
Defined.

(** X15, on a proposal that validator v1 approved already. *)
Lemma repeated_name_rejected_witness :
  let p := pending idA "REVOKE_CREDENTIAL" ["v1"] in
  run (up 100) (vote "v1" "PEM1" p) (with_proposal p)
  = (Some (res_json 409 (error_body "Voted")), with_proposal p).
Proof.
  intros p.
  destruct (repeated_name_rejected cfg (up 100) (with_proposal p) idA p)
    as (Hname & _).
  - vm_compute; reflexivity.
  - reflexivity.
  - apply Hname. apply list_elem_of_here.
Defined.


(** [POST /verify] on requests it turns down: [proof_request_data] is a
    string, or is missing; and on an agent that answers [null]. *)
Example verify_turns_down :
  run (agent_up 0) (Gateway.verify gateway_cfg 0 (str "system") (str "abc")) empty_world
  = (Some (res_json 400
             (JObj [("errors",
                     JArr [JObj [("type", JStr "field"); ("value", JStr "abc");
                                 ("msg", JStr "Must be JSON");
                                 ("path", JStr "proof_request_data");
                                 ("location", JStr "body")]])])),
     empty_world)
  ∧ (run (agent_up 0) (Gateway.verify gateway_cfg 0 (str "system") None)
       empty_world).2
    = empty_world
  ∧ length (Gateway.validation_errors None) = 2%nat
  ∧ (let result :=
       run (agent_null 0) (Gateway.verify gateway_cfg 0 (str "system") proof_request)
         empty_world in
     result.1 = Some (res_json 500 (error_body "Internal Server Error"))
     ∧ strings result.2 = ∅
     ∧ length (outbox result.2) = 1%nat).
Proof. vm_compute. done. Qed.

(** X13, on the test doubles, which lose nothing either. *)
Lemma log_request_determines_evidence_witness :
  (10 = 10)%Z ∧ exchange_X = exchange_X
  ∧ sha256_hex (Json.stringify verified_event)
    = sha256_hex (Json.stringify verified_event).
Proof.
  apply (log_request_determines_evidence 10 10 exchange_X exchange_X
           verified_event verified_event).
  - intros a b Hab. exact Hab.
  - intros a b Hab. by apply (inj pretty) in Hab.
  - reflexivity.
Defined.

(** The event of exchange X after the session's hour is dropped. *)
Example late_event_is_dropped :
  let opened :=
    (run (agent_up 0) (Gateway.verify gateway_cfg 0 (str "system") proof_request)
       empty_world).2 in
  run (up 3600) (Gateway.present_proof gateway_cfg 3600 verified_event) opened
  = (Some (res_send 200 ""), opened).
Proof. vm_compute. reflexivity. Qed.

(** Who passes [requireAdmin] and the guards of [POST /verify]. *)
Example gates_on_sample_tokens :
  run (up 0) (Access.requireAdmin "s" (Some "Bearer t-admin") echo_user) empty_world
  = (Some (res_json 200 (JObj [("username", JStr "root"); ("role", JStr "admin")])),
     empty_world)
  ∧ (run (up 0) (Access.requireAdmin "s" (Some "Bearer t-verifier") echo_user)
       empty_world).1
    = Some (res_json 403 (error_body "Forbidden: Admins Only"))
  ∧ (run (up 0) (Access.requireAdmin "s" (Some "t-admin") echo_user) empty_world).1
    = Some (res_json 403 (error_body "Forbidden: Admins Only"))
  ∧ (run (up 0)
       (Access.verify_guards ["k1"; "k2"] "s" (Some "k2") (Some "Bearer t-holder")
          echo_user) empty_world).1
    = Some (res_json 200 Access.system_user)
  ∧ (run (up 0)
       (Access.verify_guards ["k1"; "k2"] "s" (Some "k3") (Some "Bearer t-holder")
          echo_user) empty_world).1
    = Some (res_json 403 (error_body "Forbidden"))
  ∧ (run (up 0)
       (Access.verify_guards ["k1"; "k2"] "s" None None echo_user) empty_world).1
    = Some (res_json 401 (error_body "Unauthorized Access")).
Proof. vm_compute. done. Qed.

(** The table loaded from a directory with two keys and a stray file. *)
Example validators_of_sample_directory :
  Keys.load_validators (Some keys_dir)
  = list_to_map [("validator_1", "PEM1"); ("validator_2", "PEM2")].
Proof. vm_compute. reflexivity. Qed.

(** Three submissions in flight, served last to first. *)
Example appends_served_in_reverse :
  let result :=
    interleave (up 0) [2; 1; 0]%nat (TransparencyLog.submit <$> submissions)
      empty_world in
  Overlap.receipt <$> result.1 = [Some 2; None; Some 1]
  ∧ TransparencyLog.uuid <$> TransparencyLog.entries result.2 = ["c"; "a"].
Proof. vm_compute. done. Qed.

End Scenarios.
